(** * pre-commit-python-eol: the EOL check of [check_eol.py]

    A shallow embedding of [src/pre_commit_python_eol/check_eol.py] and the
    properties of its release model, dataset loader, specifier evaluation,
    specifier repair and per-file orchestration.

    Conventions.
    - A Python [str] is a [string]; the texts the program handles (version
      numbers, dates, requirement specifiers) are ASCII.
    - A Python [int] is a [Z].
    - A function that can raise returns a [result]: [Ok v] or [Raise e].
    - The standard library's [date.fromisoformat] and the third-party
      [packaging] library are not part of the repository: the development is
      parameterised by them through the classes [Datetime] and [Packaging],
      which record only their documented behaviour.  Module [Ref] gives small
      instances on which the definitions run. *)

From Stdlib Require Import ZArith Ascii String DecimalString DecimalZ.
From stdpp Require Import base tactics option list sorting gmap strings.

Local Open Scope Z_scope.

(** ** Exceptions and results *)

Inductive exn : Type :=
  | ValueError                    (* builtin *)
  | OverflowError                 (* builtin *)
  | KeyError                      (* builtin, a missing dict key *)
  | IndexError                    (* builtin, a list index out of range *)
  | FileNotFoundError             (* builtin, [Path.open] *)
  | InvalidVersion                (* packaging.version *)
  | InvalidSpecifier              (* packaging.specifiers *)
  | EOLPythonError (msg : string)
  | RequiresPythonNotFoundError
  | UnsupportedFixError.

Global Instance exn_eq_dec : EqDecision exn.
Proof. solve_decision. Defined.

Inductive result (A : Type) : Type :=
  | Ok (a : A)
  | Raise (e : exn).
Arguments Ok {A} a.
Arguments Raise {A} e.

Definition rbind {A B} (r : result A) (k : A → result B) : result B :=
  match r with
  | Ok a => k a
  | Raise e => Raise e
  end.

Notation "'let*' x := r 'in' k" := (rbind r (fun x => k))
  (at level 10, x name, r at level 100, k at level 200).

(** [or_raise e o]: a library call that returns, or raises [e]. *)
Definition or_raise {A} (e : exn) (o : option A) : result A :=
  match o with
  | Some a => Ok a
  | None => Raise e
  end.

(** Each element in turn, stopping at the first that raises: what consuming
    the generator [(f(x) for x in l)] does. *)
Fixpoint rmap {A B} (f : A → result B) (l : list A) : result (list B) :=
  match l with
  | [] => Ok []
  | x :: l' =>
      let* y := f x in
      let* ys := rmap f l' in
      Ok (y :: ys)
  end.

(** ** Python strings and integers *)

(** [s.split(sep)] for a one-character separator. *)
Fixpoint split (sep : ascii) (s : string) : list string :=
  match s with
  | EmptyString => [EmptyString]
  | String c s' =>
      if Ascii.eqb c sep then EmptyString :: split sep s'
      else match split sep s' with
           | [] => [String c EmptyString]
           | p :: ps => String c p :: ps
           end
  end.

(** [sep.join(l)] *)
Fixpoint join (sep : string) (l : list string) : string :=
  match l with
  | [] => EmptyString
  | [x] => x
  | x :: l' => x +:+ sep +:+ join sep l'
  end.

(** The default of [sys.get_int_max_str_digits()]: [int(s)] and [str(n)]
    raise [ValueError] beyond that many digits. *)
Definition int_max_str_digits : nat := 4300.

(** The decimal digits of an [int], after its sign if it is negative. *)
Definition decimal (n : Z) : string := NilZero.string_of_int (Z.to_int n).

(** The number of digits of [n], its sign apart. *)
Definition str_digits (n : Z) : nat := String.length (decimal (Z.abs n)).

(** [str(n)] for an [int], which is also what an f-string does with it. *)
Definition str_int (n : Z) : result string :=
  if (str_digits n <=? int_max_str_digits)%nat then Ok (decimal n)
  else Raise ValueError.

Definition digit_val (c : ascii) : option Z :=
  let n := Z.of_N (N_of_ascii c) in
  if (48 <=? n) && (n <=? 57) then Some (n - 48) else None.

Definition digit_char (d : Z) : ascii := ascii_of_N (Z.to_N (48 + d)).

(** A string of digits, read in base 10. *)
Fixpoint digits_value (s : string) (acc : Z) : option Z :=
  match s with
  | EmptyString => Some acc
  | String c s' => d ← digit_val c; digits_value s' (10 * acc + d)
  end.

Definition is_digit (c : ascii) : bool :=
  match digit_val c with Some _ => true | None => false end.

Fixpoint all_digits (s : string) : bool :=
  match s with
  | EmptyString => true
  | String c s' => is_digit c && all_digits s'
  end.

(** [c in s] *)
Fixpoint has_char (c : ascii) (s : string) : bool :=
  match s with
  | EmptyString => false
  | String c' s' => Ascii.eqb c' c || has_char c s'
  end.

Fixpoint lstrip (s : string) : string :=
  match s with
  | String c s' => if Ascii.is_space c then lstrip s' else s
  | EmptyString => EmptyString
  end.

(** What is left of a string after its trailing white space is dropped. *)
Fixpoint rstrip (s : string) : string :=
  match s with
  | EmptyString => EmptyString
  | String c s' =>
      match rstrip s' with
      | EmptyString => if Ascii.is_space c then EmptyString else String c EmptyString
      | r => String c r
      end
  end.

(** The digits of a decimal literal after its first digit: digits, each
    optionally preceded by one underscore.  [acc] is the value read so far and
    [n] the number of digits read. *)
Fixpoint int_digits (s : string) (acc : Z) (n : nat) : option (Z * nat) :=
  match s with
  | EmptyString => Some (acc, n)
  | String c s' =>
      match digit_val c with
      | Some d => int_digits s' (10 * acc + d) (S n)
      | None =>
          if Ascii.eqb c "_" then
            match s' with
            | String c' s'' =>
                match digit_val c' with
                | Some d => int_digits s'' (10 * acc + d) (S n)
                | None => None
                end
            | EmptyString => None
            end
          else None
      end
  end.

Definition int_unsigned (s : string) : option Z :=
  match s with
  | String c s' =>
      match digit_val c with
      | Some d =>
          match int_digits s' d 1 with
          | Some (v, n) => if (n <=? int_max_str_digits)%nat then Some v else None
          | None => None
          end
      | None => None
      end
  | EmptyString => None
  end.

(** [int(s)] in base 10; [None] is [ValueError]. *)
Definition py_int (s : string) : option Z :=
  match rstrip (lstrip s) with
  | String c s' =>
      if Ascii.eqb c "+" then int_unsigned s'
      else if Ascii.eqb c "-" then Z.opp <$> int_unsigned s'
      else int_unsigned (String c s')
  | EmptyString => None
  end.

(** ** [datetime.date] *)

Record date : Type := mk_date { year : Z; month : Z; day : Z }.

Global Instance date_eq_dec : EqDecision date.
Proof. solve_decision. Defined.

Definition is_leap (y : Z) : bool :=
  (y mod 4 =? 0) && (negb (y mod 100 =? 0) || (y mod 400 =? 0)).

Definition days_in_month (y m : Z) : Z :=
  if m =? 2 then (if is_leap y then 29 else 28)
  else if (m =? 4) || (m =? 6) || (m =? 9) || (m =? 11) then 30
  else 31.

Definition MINYEAR : Z := 1.
Definition MAXYEAR : Z := 9999.

Definition valid_ymd (y m d : Z) : bool :=
  (MINYEAR <=? y) && (y <=? MAXYEAR) && (1 <=? m) && (m <=? 12) &&
  (1 <=? d) && (d <=? days_in_month y m).

Definition valid_date (d : date) : bool := valid_ymd (year d) (month d) (day d).

(** A C [int], the type [date(...)] converts its arguments to. *)
Definition fits_c_int (n : Z) : bool := (-2147483648 <=? n) && (n <=? 2147483647).

(** [dt.date(year=y, month=m, day=d)] *)
Definition date_new (y m d : Z) : result date :=
  if negb (fits_c_int y && fits_c_int m && fits_c_int d) then Raise OverflowError
  else if valid_ymd y m d then Ok (mk_date y m d)
  else Raise ValueError.

(** [a <= b] on dates: the order of the triples (year, month, day). *)
Definition date_le (a b : date) : Prop :=
  year a < year b ∨
  (year a = year b ∧ (month a < month b ∨ (month a = month b ∧ day a <= day b))).

Definition date_leb (a b : date) : bool :=
  match year a ?= year b with
  | Lt => true
  | Gt => false
  | Eq => match month a ?= month b with
          | Lt => true
          | Gt => false
          | Eq => day a <=? day b
          end
  end.

(** [n] written with [w] digits, as [%0wd] writes an [n] of at most [w]
    digits. *)
Fixpoint pad (w : nat) (n : Z) : string :=
  match w with
  | O => EmptyString
  | S w' => String (digit_char (n / 10 ^ Z.of_nat w' mod 10)) (pad w' n)
  end.

(** [d.isoformat()] *)
Definition isoformat (d : date) : string :=
  pad 4 (year d) +:+ "-" +:+ pad 2 (month d) +:+ "-" +:+ pad 2 (day d).

(** [date.fromisoformat], by its contract: it raises [ValueError] or returns a
    date, every date is a valid one, and it inverts [isoformat].  Which other
    ISO 8601 spellings it accepts depends on the Python version and is left
    open. *)
Class Datetime : Type := {
  fromisoformat : string → option date;
  fromisoformat_valid s d : fromisoformat s = Some d → valid_date d = true;
  fromisoformat_isoformat d :
    valid_date d = true → fromisoformat (isoformat d) = Some d;
}.

(** The two shapes of a date text: four digits, a dash and two digits, and
    the same followed by a dash and two more digits. *)
Definition shape_YYYY_MM (s : string) : bool :=
  match s with
  | String y1 (String y2 (String y3 (String y4 (String sep (String m1
      (String m2 EmptyString)))))) =>
      is_digit y1 && is_digit y2 && is_digit y3 && is_digit y4 &&
      Ascii.eqb sep "-" && is_digit m1 && is_digit m2
  | _ => false
  end.

Definition shape_YYYY_MM_DD (s : string) : bool :=
  match s with
  | String y1 (String y2 (String y3 (String y4 (String sep1 (String m1
      (String m2 (String sep2 (String d1 (String d2 EmptyString))))))))) =>
      is_digit y1 && is_digit y2 && is_digit y3 && is_digit y4 &&
      Ascii.eqb sep1 "-" && is_digit m1 && is_digit m2 &&
      Ascii.eqb sep2 "-" && is_digit d1 && is_digit d2
  | _ => false
  end.

(** ** The release model *)

Inductive ReleasePhase : Type := FEATURE | PRERELEASE | BUGFIX | SECURITY | EOL.

Global Instance ReleasePhase_eq_dec : EqDecision ReleasePhase.
Proof. solve_decision. Defined.

(** The value of each member of the [StrEnum]. *)
Definition ReleasePhase_value (p : ReleasePhase) : string :=
  match p with
  | FEATURE => "feature"
  | PRERELEASE => "prerelease"
  | BUGFIX => "bugfix"
  | SECURITY => "security"
  | EOL => "end-of-life"
  end.

(** [ReleasePhase(s)]: the member whose value is [s], or [ValueError]. *)
Definition ReleasePhase_new (s : string) : result ReleasePhase :=
  or_raise ValueError
    (find (λ p, bool_decide (ReleasePhase_value p = s))
          [FEATURE; PRERELEASE; BUGFIX; SECURITY; EOL]).

Section parse_date.
Context `{Datetime}.

Definition _parse_eol_date (date_str : string) : result date :=
  let parts := split "-" date_str in
  match parts with
  | [_; _; _] => or_raise ValueError (fromisoformat date_str)
  | [y; m] =>
      let* year := or_raise ValueError (py_int y) in
      let* month := or_raise ValueError (py_int m) in
      date_new year month 1
  | _ => Raise ValueError
  end.
End parse_date.

(** ** The [packaging] library

    [packaging.version.Version] and [packaging.specifiers.SpecifierSet], by
    what the program uses of them.  [Version_lt] is [<] on versions, a strict
    weak order: two versions can be equal without being spelled the same. *)
Class Packaging : Type := {
  Version : Type;
  (** [Version(s)], or [InvalidVersion] *)
  Version_new : string → option Version;
  major : Version → Z;
  minor : Version → Z;
  (** [str(v)] *)
  Version_str : Version → string;
  (** [a < b] *)
  Version_lt : Version → Version → bool;
  Version_lt_asym a b : Version_lt a b = true → Version_lt b a = false;
  Version_lt_negtrans a b c :
    Version_lt a b = false → Version_lt b c = false → Version_lt a c = false;
  Specifier : Type;
  (** [spec.operator] *)
  operator : Specifier → string;
  SpecifierSet : Type;
  (** [SpecifierSet(s)], or [InvalidSpecifier] *)
  SpecifierSet_new : string → option SpecifierSet;
  (** [list(specs)]; [len(specs)] is its length *)
  specifiers : SpecifierSet → list Specifier;
  (** [v in specs] *)
  contains : SpecifierSet → Version → bool;
}.

(** ** [sorted(l, key=key, reverse=reverse)]

    Python's sort is stable and compares keys with [<] only.  With
    [reverse=True] it reverses the list, sorts it and reverses the outcome, so
    that equal elements keep their order. *)
Section sorted.
Context {A K : Type} (key : A → K) (lt : K → K → bool).

Fixpoint insert_by (x : A) (l : list A) : list A :=
  match l with
  | [] => [x]
  | y :: l' => if lt (key y) (key x) then y :: insert_by x l' else x :: y :: l'
  end.

Definition sort_by (l : list A) : list A := foldr insert_by [] l.

Definition sorted (l : list A) (rev : bool) : list A :=
  if rev then reverse (sort_by (reverse l)) else sort_by l.

(** No element is above a later one. *)
Definition ascending_by (l : list A) : Prop :=
  StronglySorted (λ a b, lt (key b) (key a) = false) l.

(** No element is below a later one. *)
Definition descending_by (l : list A) : Prop :=
  StronglySorted (λ a b, lt (key a) (key b) = false) l.

(** Every element is above the later ones. *)
Definition strictly_descending_by (l : list A) : Prop :=
  StronglySorted (λ a b, lt (key b) (key a) = true) l.
End sorted.

Section program.
Context `{Datetime} `{Packaging}.

Record PythonRelease : Type := mk_release {
  python_ver : Version;
  status : ReleasePhase;
  end_of_life : date;
}.

(** A dict read with [d[k]]. *)
Definition getitem (d : gmap string string) (k : string) : result string :=
  or_raise KeyError (d !! k).

Definition from_json (ver : string) (metadata : gmap string string)
  : result PythonRelease :=
  let* python_ver := or_raise InvalidVersion (Version_new ver) in
  let* status_str := getitem metadata "status" in
  let* status := ReleasePhase_new status_str in
  let* eol_str := getitem metadata "end_of_life" in
  let* end_of_life := _parse_eol_date eol_str in
  Ok (mk_release python_ver status end_of_life).

(** [utc_today] is [dt.datetime.now(dt.timezone.utc).date()], the reading
    of the clock. *)
Definition is_eol (utc_today : date) (self : PythonRelease)
    (use_system_date : bool) : bool :=
  if bool_decide (status self = EOL) then true
  else if use_system_date && date_leb (end_of_life self) utc_today then true
  else false.

(** The decoded cache file: a JSON object, in the order of the file, whose
    values are objects with text fields. *)
Definition cache : Type := list (string * gmap string string).

Definition _get_cached_release_cycle (contents : cache)
  : result (list PythonRelease) :=
  let* releases := rmap (λ vm, from_json vm.1 vm.2) contents in
  Ok (sorted python_ver Version_lt releases true).

Definition get_fixed_spec (specs : SpecifierSet)
    (eol_supported : list PythonRelease) : result string :=
  if negb (length (specifiers specs) =? 1)%nat then Raise UnsupportedFixError
  else
    let* spec := or_raise IndexError (head (specifiers specs)) in
    if negb (String.eqb (operator spec) ">=") then Raise UnsupportedFixError
    else
      let* last_eol := or_raise IndexError (last eol_supported) in
      let cutoff := python_ver last_eol in
      let* major_str := str_int (major cutoff) in
      let* minor_str := str_int (minor cutoff + 1) in
      let new_minimum := major_str +:+ "." +:+ minor_str in
      Ok (">=" +:+ new_minimum).

(** The releases the specifier admits that are end-of-life, in the order of
    the release cycle: the list comprehension of [check_python_support]. *)
Definition eol_covered (utc_today : date) (package_spec : SpecifierSet)
    (release_cycle : list PythonRelease) (use_system_date : bool)
  : list PythonRelease :=
  List.filter
    (λ r, contains package_spec (python_ver r) && is_eol utc_today r use_system_date)
    release_cycle.

(** The same after [eol_supported.sort(key=attrgetter("python_ver"))]. *)
Definition eol_overlap (utc_today : date) (package_spec : SpecifierSet)
    (release_cycle : list PythonRelease) (use_system_date : bool)
  : list PythonRelease :=
  sorted python_ver Version_lt
    (eol_covered utc_today package_spec release_cycle use_system_date) false.

Definition ascending : list PythonRelease → Prop :=
  ascending_by python_ver Version_lt.
Definition descending : list PythonRelease → Prop :=
  descending_by python_ver Version_lt.
Definition strictly_descending : list PythonRelease → Prop :=
  strictly_descending_by python_ver Version_lt.

(** [python_ver r == v]: neither version is below the other. *)
Definition same_version (v : Version) (r : PythonRelease) : bool :=
  negb (Version_lt v (python_ver r)) && negb (Version_lt (python_ver r) v).

(** A TOML document: tables of text values. *)
Definition toml : Type := gmap string (gmap string string).

(** The files the program reads and writes, and the writes it has made, the
    latest last. *)
Record world : Type := mk_world {
  files : gmap string toml;
  writes : list (string * toml);
}.

Definition write_file (w : world) (path : string) (doc : toml) : world :=
  mk_world (<[path := doc]> (files w)) (writes w ++ [(path, doc)]).

Definition eol_message (eol_supported : list PythonRelease) : string :=
  "EOL Python support found: " +:+
  join ", " (map (λ r, Version_str (python_ver r)) eol_supported).

Definition check_python_support (utc_today : date) (w : world)
    (toml_file : string) (cache_json : cache) (use_system_date fix_ : bool)
  : world * result unit :=
  match files w !! toml_file with
  | None => (w, Raise FileNotFoundError)
  | Some contents =>
      match default ∅ (contents !! "project") !! "requires-python" with
      | None | Some EmptyString => (w, Raise RequiresPythonNotFoundError)
      | Some requires_python =>
          match SpecifierSet_new requires_python with
          | None => (w, Raise InvalidSpecifier)
          | Some package_spec =>
              match _get_cached_release_cycle cache_json with
              | Raise e => (w, Raise e)
              | Ok release_cycle =>
                  match eol_covered utc_today package_spec release_cycle
                          use_system_date with
                  | [] => (w, Ok tt)
                  | eol_supported =>
                      let eol_supported :=
                        sorted python_ver Version_lt eol_supported false in
                      let raised := Raise (EOLPythonError (eol_message eol_supported)) in
                      if fix_ then
                        match get_fixed_spec package_spec eol_supported with
                        | Raise e => (w, Raise e)
                        | Ok new_spec =>
                            let project := default ∅ (contents !! "project") in
                            let contents :=
                              <["project" := <["requires-python" := new_spec]> project]>
                                contents in
                            (write_file w toml_file contents, raised)
                        end
                      else (w, raised)
                  end
              end
          end
      end
  end.

(** What a call of [check_python_support] leaves: the world after it, and
    its return or the exception it raises.  The four forms below are the ones
    [main] reports on. *)
Definition outcome : Type := world * result unit.

Definition clean (w : world) : outcome := (w, Ok tt).

Definition lookup_error (w : world) : outcome :=
  (w, Raise RequiresPythonNotFoundError).

Definition violation (w : world) (eol_supported : list PythonRelease) : outcome :=
  (w, Raise (EOLPythonError (eol_message eol_supported))).

Definition fixed (w : world) (toml_file : string) (contents : toml)
    (new_spec : string) (eol_supported : list PythonRelease) : outcome :=
  (write_file w toml_file
     (<["project" :=
          <["requires-python" := new_spec]> (default ∅ (contents !! "project"))]>
        contents),
   Raise (EOLPythonError (eol_message eol_supported))).

(** No two releases of the list have equal versions. *)
Definition distinct_versions (l : list PythonRelease) : Prop :=
  ∀ i j a b, i ≠ j → l !! i = Some a → l !! j = Some b →
    Version_lt (python_ver a) (python_ver b) = true ∨
    Version_lt (python_ver b) (python_ver a) = true.

Definition not_found_message (file : string) : string :=
  file +:+ " 'requires-python' could not be located, or it is empty.".

(** The loop of [main]: [ec] is the exit code so far and [out] the lines
    printed so far. *)
Fixpoint main_loop (utc_today : date) (cache_json : cache)
    (cache_only fix_ : bool) (filenames : list string)
    (w : world) (ec : Z) (out : list string)
  : world * list string * result Z :=
  match filenames with
  | [] => (w, out, Ok ec)
  | file :: rest =>
      let '(w', r) :=
        check_python_support utc_today w file cache_json (negb cache_only) fix_ in
      match r with
      | Ok _ => main_loop utc_today cache_json cache_only fix_ rest w' ec out
      | Raise (EOLPythonError e) =>
          main_loop utc_today cache_json cache_only fix_ rest w' 1
            (out ++ [file +:+ ": " +:+ e])
      | Raise RequiresPythonNotFoundError =>
          main_loop utc_today cache_json cache_only fix_ rest w' 1
            (out ++ [not_found_message file])
      | Raise e => (w', out, Raise e)
      end
  end.

(** The line [main] prints for what the check of [file] returned or raised,
    if it prints one: the two [except] clauses. *)
Definition report_line (file : string) (r : result unit) : option string :=
  match r with
  | Raise (EOLPythonError e) => Some (file +:+ ": " +:+ e)
  | Raise RequiresPythonNotFoundError => Some (not_found_message file)
  | _ => None
  end.

(** [main] after its arguments are parsed; [cache_json] is the content of
    [CACHED_RELEASE_CYCLE]. *)
Definition main (utc_today : date) (cache_json : cache) (w : world)
    (filenames : list string) (cache_only fix_ : bool)
  : world * list string * result Z :=
  main_loop utc_today cache_json cache_only fix_ filenames w 0 [].
End program.

(** ** Reference instances

    [date.fromisoformat] for the extended calendar form [YYYY-MM-DD], and
    [packaging] for final releases written as dotted numbers ([3], [3.8],
    [3.8.0]) and for specifier sets whose clauses are one of [>=], [<=], [>],
    [<], [==], [!=] followed by such a version.  They serve to run the
    definitions on concrete inputs; the properties below hold for every
    instance. *)
Module Ref.

Definition iso_calendar (s : string) : option date :=
  match s with
  | String y1 (String y2 (String y3 (String y4 (String sep1
      (String m1 (String m2 (String sep2
        (String d1 (String d2 EmptyString))))))))) =>
      if Ascii.eqb sep1 "-" && Ascii.eqb sep2 "-" then
        a ← digit_val y1; b ← digit_val y2; c ← digit_val y3; d ← digit_val y4;
        e ← digit_val m1; f ← digit_val m2;
        g ← digit_val d1; h ← digit_val d2;
        let dt := mk_date (1000 * a + 100 * b + 10 * c + d) (10 * e + f) (10 * g + h) in
        if valid_date dt then Some dt else None
      else None
  | _ => None
  end.

(** A number of the release segment: digits, at most as many as [int]
    reads. *)
Definition number (s : string) : option Z :=
  match s with
  | EmptyString => None
  | _ =>
      if (String.length s <=? int_max_str_digits)%nat then digits_value s 0
      else None
  end.

(** The release segment of a version. *)
Definition release : Type := list Z.

Definition parse_release (s : string) : option release :=
  mapM number (split "." s).

(** The release segment without its trailing zeros, the key versions are
    compared by. *)
Fixpoint strip0 (l : release) : release :=
  match l with
  | [] => []
  | x :: l' =>
      match strip0 l' with
      | [] => if x =? 0 then [] else [x]
      | r => x :: r
      end
  end.

Fixpoint lex_lt (a b : list Z) : bool :=
  match a, b with
  | _, [] => false
  | [], _ :: _ => true
  | x :: a', y :: b' => (x <? y) || ((x =? y) && lex_lt a' b')
  end.

Definition release_lt (a b : release) : bool := lex_lt (strip0 a) (strip0 b).

Definition release_str (v : release) : string := join "." (map decimal v).

Definition strip (s : string) : string := rstrip (lstrip s).

(** A clause: its operator and the key of its version. *)
Definition clause : Type := string * release.

Definition parse_clause (c : string) : option clause :=
  match c with
  | String ">" (String "=" v) => r ← parse_release (strip v); Some (">=", strip0 r)
  | String "<" (String "=" v) => r ← parse_release (strip v); Some ("<=", strip0 r)
  | String "=" (String "=" v) => r ← parse_release (strip v); Some ("==", strip0 r)
  | String "!" (String "=" v) => r ← parse_release (strip v); Some ("!=", strip0 r)
  | String ">" v => r ← parse_release (strip v); Some (">", strip0 r)
  | String "<" v => r ← parse_release (strip v); Some ("<", strip0 r)
  | _ => None
  end.

(** The clauses between commas, blank ones dropped, equal ones kept once. *)
Definition parse_specifier_set (s : string) : option (list clause) :=
  remove_dups <$>
    mapM parse_clause
      (List.filter (λ c, negb (String.eqb c "")) (map strip (split "," s))).

Definition clause_holds (v : release) (c : clause) : bool :=
  let k := strip0 v in
  if String.eqb c.1 ">=" then negb (lex_lt k c.2)
  else if String.eqb c.1 "<=" then negb (lex_lt c.2 k)
  else if String.eqb c.1 ">" then lex_lt c.2 k
  else if String.eqb c.1 "<" then lex_lt k c.2
  else if String.eqb c.1 "==" then negb (lex_lt k c.2) && negb (lex_lt c.2 k)
  else lex_lt k c.2 || lex_lt c.2 k.

Definition set_contains (specs : list clause) (v : release) : bool :=
  forallb (clause_holds v) specs.

#[export] Program Instance datetime : Datetime :=
  {| fromisoformat := iso_calendar |}.
Next Obligation.
  intros s d. unfold iso_calendar.
  repeat (case_match; try discriminate).
  destruct (_ && _); [|done]. intros Heq. simplify_option_eq.
  case_match; by simplify_eq.
Qed.
Next Obligation.
  assert (Hdigit : ∀ k, 0 <= k <= 9 → digit_val (digit_char k) = Some k).
  { intros k Hk.
    assert (k = 0 ∨ k = 1 ∨ k = 2 ∨ k = 3 ∨ k = 4 ∨ k = 5 ∨ k = 6 ∨ k = 7 ∨
            k = 8 ∨ k = 9) as Hcases by lia.
    repeat (destruct Hcases as [->|Hcases]; [reflexivity|]).
    by subst. }
  intros [y m d] Hv. unfold valid_date, valid_ymd, MINYEAR, MAXYEAR in Hv.
  simpl in Hv.
  assert (d <= 31).
  { unfold days_in_month in Hv. repeat case_match; lia. }
  unfold isoformat, iso_calendar; simpl year; simpl month; simpl day.
  change (pad 4 y) with
    (String (digit_char (y / 1000 mod 10)) (String (digit_char (y / 100 mod 10))
      (String (digit_char (y / 10 mod 10)) (String (digit_char (y / 1 mod 10)) ""))))%string.
  change (pad 2 m) with
    (String (digit_char (m / 10 mod 10)) (String (digit_char (m / 1 mod 10)) ""))%string.
  change (pad 2 d) with
    (String (digit_char (d / 10 mod 10)) (String (digit_char (d / 1 mod 10)) ""))%string.
  cbv beta iota fix delta [String.append]. rewrite !Z.div_1_r. cbv beta iota.
  change (Ascii.eqb "-" "-") with true. cbn [andb].
  rewrite !Hdigit by (Z.to_euclidean_division_equations; lia).
  cbn [mbind option_bind].
  replace (1000 * (y / 1000 mod 10) + 100 * (y / 100 mod 10) + 10 * (y / 10 mod 10) + y mod 10)
    with y by (Z.to_euclidean_division_equations; lia).
  replace (10 * (m / 10 mod 10) + m mod 10) with m
    by (Z.to_euclidean_division_equations; lia).
  replace (10 * (d / 10 mod 10) + d mod 10) with d
    by (Z.to_euclidean_division_equations; lia).
  unfold valid_date, valid_ymd, MINYEAR, MAXYEAR; simpl. by rewrite Hv.
Qed.

#[export] Program Instance packaging : Packaging :=
  {| Version := release;
     Version_new := parse_release;
     major := λ v, nth 0 v 0;
     minor := λ v, nth 1 v 0;
     Version_str := release_str;
     Version_lt := release_lt;
     Specifier := clause;
     operator := fst;
     SpecifierSet := list clause;
     SpecifierSet_new := parse_specifier_set;
     specifiers := id;
     contains := set_contains |}.
Next Obligation.
  intros a b. unfold release_lt.
  generalize (strip0 a) (strip0 b). clear a b.
  intros a. induction a as [|x a IH]; intros [|y b]; simpl; try done.
  intros Hlt. apply orb_true_iff in Hlt as [Hlt|Hlt].
  - apply orb_false_iff. split; [lia|]. apply andb_false_iff. left. lia.
  - apply andb_true_iff in Hlt as [Heq Hlt].
    apply orb_false_iff. split; [lia|]. apply andb_false_iff. right. by apply IH.
Qed.
Next Obligation.
  intros a b c. unfold release_lt.
  generalize (strip0 a) (strip0 b) (strip0 c). clear a b c.
  intros a. induction a as [|x a IH]; intros [|y b] [|z c]; simpl; try done.
  intros Hab Hbc.
  apply orb_false_iff in Hab as [Hxy Hab]. apply orb_false_iff in Hbc as [Hyz Hbc].
  apply orb_false_iff. split; [lia|].
  destruct (x =? z) eqn:Hxz; [|done]. simpl.
  assert (x = y) as -> by lia. assert (y = z) as -> by lia.
  rewrite Z.eqb_refl in Hab, Hbc. simpl in *. by eapply IH.
Qed.

End Ref.


(** ** Sample data *)
Module Sample.
Import Ref.

Definition utc_today : date := mk_date 2026 11 3.

Definition metadata (status end_of_life : string) : gmap string string :=
  {[ "status" := status; "end_of_life" := end_of_life ]}.

(** A release cycle whose entries are not in order. *)
Definition release_cycle_json : cache :=
  [ ("3.9", metadata "end-of-life" "2025-10");
    ("3.14", metadata "bugfix" "2030-10");
    ("3.8", metadata "end-of-life" "2024-10-07");
    ("3.10", metadata "security" "2026-10") ].

Definition py38 : PythonRelease := mk_release [3; 8] EOL (mk_date 2024 10 7).
Definition py39 : PythonRelease := mk_release [3; 9] EOL (mk_date 2025 10 1).
Definition py310 : PythonRelease := mk_release [3; 10] SECURITY (mk_date 2026 10 1).
Definition py314 : PythonRelease := mk_release [3; 14] BUGFIX (mk_date 2030 10 1).

Definition release_cycle : list PythonRelease := [py314; py310; py39; py38].

(** The number written 1 and [n] zeros, from its digits. *)
Definition ten_pow (n : nat) : Z :=
  Z.of_uint (Decimal.D1 (Nat.iter n Decimal.D0 Decimal.Nil)).

(** The release of version [3.99...9], with 4300 nines, the longest number
    [int] reads: its minor plus one has 4301 digits. *)
Definition py_huge : PythonRelease :=
  mk_release [3; ten_pow 4300 - 1] EOL (mk_date 2024 10 7).

(** An entry whose status is not a release phase. *)
Definition unknown_status_json : cache :=
  [ ("3.9", metadata "end-of-life" "2025-10");
    ("3.8", metadata "retired" "2024-10-07") ].

(** An entry whose key is not a version. *)
Definition bad_key_json : cache := [ ("not-a-version", metadata "bugfix" "2030-10") ].

(** Two keys that spell the same version. *)
Definition twice_json : cache :=
  [ ("3.8", metadata "end-of-life" "2024-10-07");
    ("3.8.0", metadata "end-of-life" "2024-10-07") ].

(** [SpecifierSet(">=3.8")], [SpecifierSet(">=3.8,<4.0")] and
    [SpecifierSet("==3.8")] *)
Definition spec_ge38 : SpecifierSet := [(">=", [3; 8])].
Definition spec_ge38_lt4 : SpecifierSet := [(">=", [3; 8]); ("<", [4])].
Definition spec_eq38 : SpecifierSet := [("==", [3; 8])].

Definition manifest (requires_python : string) : toml :=
  {[ "project" := {[ "requires-python" := requires_python ]} ]}.

Definition project_files : world :=
  mk_world {[ "a.toml" := manifest ">=3.8"; "b.toml" := manifest "==3.8" ]} [].

(** A clean manifest, one without a [project] table and one whose specifier
    is not one. *)
Definition other_files : world :=
  mk_world {[ "c.toml" := manifest ">=3.14"; "d.toml" := ∅;
              "e.toml" := manifest "three" ]} [].

End Sample.

(** * Properties *)

(** ** Dates *)

Lemma date_leb_le a b : date_leb a b = true ↔ date_le a b.
Proof.
  unfold date_leb, date_le.
  destruct (Z.compare_spec (year a) (year b)),
           (Z.compare_spec (month a) (month b));
    rewrite ?Z.leb_le; split; intros; try lia; try done.
Qed.

(** ** Sorting *)

Section sorted_facts.
Context {A K : Type} (key : A → K) (lt : K → K → bool).
Hypothesis lt_asym : ∀ a b, lt a b = true → lt b a = false.
Hypothesis lt_negtrans :
  ∀ a b c, lt a b = false → lt b c = false → lt a c = false.

Lemma insert_by_Permutation x l : insert_by key lt x l ≡ₚ x :: l.
Proof.
  induction l as [|y l IH]; simpl; [done|].
  destruct (lt (key y) (key x)); [|done].
  rewrite IH. apply Permutation_swap.
Qed.

Lemma sort_by_Permutation l : sort_by key lt l ≡ₚ l.
Proof.
  induction l as [|x l IH]; simpl; [done|].
  by rewrite insert_by_Permutation, IH.
Qed.

Lemma sorted_Permutation l rev : sorted key lt l rev ≡ₚ l.
Proof.
  destruct rev; simpl; [|apply sort_by_Permutation].
  by rewrite reverse_Permutation, sort_by_Permutation, reverse_Permutation.
Qed.

Lemma insert_by_ascending x l :
  ascending_by key lt l → ascending_by key lt (insert_by key lt x l).
Proof using lt_asym lt_negtrans.
  unfold ascending_by.
  induction l as [|y l IH]; simpl; intros Hl.
  { repeat constructor. }
  apply StronglySorted_cons in Hl as [Hy Hl].
  destruct (lt (key y) (key x)) eqn:Hyx.
  - apply StronglySorted_cons. split; [|by apply IH].
    rewrite insert_by_Permutation. constructor; [by apply lt_asym|done].
  - apply StronglySorted_cons. split; [|by apply StronglySorted_cons].
    constructor; [done|].
    eapply Forall_impl; [exact Hy|]. simpl. intros z Hz.
    by apply (lt_negtrans _ (key y)).
Qed.

Lemma sort_by_ascending l : ascending_by key lt (sort_by key lt l).
Proof using lt_asym lt_negtrans.
  induction l as [|x l IH]; simpl; [constructor|].
  by apply insert_by_ascending.
Qed.

Lemma ascending_reverse l :
  ascending_by key lt l → descending_by key lt (reverse l).
Proof.
  unfold ascending_by, descending_by.
  induction l as [|x l IH]; intros Hl; [constructor|].
  apply StronglySorted_cons in Hl as [Hx Hl].
  rewrite reverse_cons. apply StronglySorted_app_2; [|by apply IH|repeat constructor].
  intros y z Hy Hz. apply list_elem_of_singleton in Hz as ->.
  rewrite elem_of_reverse in Hy. rewrite Forall_forall in Hx. by apply Hx.
Qed.

Lemma sorted_ascending l : ascending_by key lt (sorted key lt l false).
Proof using lt_asym lt_negtrans. apply sort_by_ascending. Qed.

Lemma sorted_descending l : descending_by key lt (sorted key lt l true).
Proof using lt_asym lt_negtrans. apply ascending_reverse, sort_by_ascending. Qed.

(** The last element of an ascending list is below none of them. *)
Lemma ascending_last l x y :
  ascending_by key lt l → last l = Some x → y ∈ l → lt (key x) (key y) = false.
Proof using lt_asym.
  intros Hl [l' ->]%last_Some Hy.
  apply elem_of_app in Hy as [Hy|Hy].
  - by eapply (StronglySorted_app_1_elem_of _ _ _ _ _ Hl), list_elem_of_singleton.
  - apply list_elem_of_singleton in Hy as ->.
    destruct (lt (key x) (key x)) eqn:Hxx; [|done].
    by rewrite (lt_asym _ _ Hxx) in Hxx.
Qed.

Lemma sorted_nil_iff l rev : sorted key lt l rev = [] ↔ l = [].
Proof.
  split; [|intros ->; destruct rev; reflexivity].
  intros Hs. apply Permutation_nil_r. rewrite <-Hs. by rewrite sorted_Permutation.
Qed.
End sorted_facts.

(** ** The release model and the repair *)

Section release_facts.
Context `{Packaging}.

Lemma Version_lt_irrefl v : Version_lt v v = false.
Proof.
  destruct (Version_lt v v) eqn:Hlt; [|done].
  by rewrite (Version_lt_asym _ _ Hlt) in Hlt.
Qed.

(** C1: a release whose phase is end-of-life is EOL whatever the flag and the
    dates; any other release is EOL, when the system date is used, exactly
    when its end-of-life date is on or before today's UTC date, and is not
    EOL when the system date is not used. *)
Theorem is_eol_spec (utc_today : date) (r : PythonRelease) (use_system_date : bool) :
  (status r = EOL → is_eol utc_today r use_system_date = true) ∧
  (status r ≠ EOL → use_system_date = true →
     (is_eol utc_today r use_system_date = true ↔ date_le (end_of_life r) utc_today)) ∧
  (status r ≠ EOL → use_system_date = false →
     is_eol utc_today r use_system_date = false).
Proof.
  unfold is_eol. split; [|split].
  - intros Hs. by rewrite bool_decide_eq_true_2.
  - intros Hs ->. rewrite bool_decide_eq_false_2 by done. simpl.
    rewrite <-date_leb_le. by destruct (date_leb _ _).
  - intros Hs ->. by rewrite bool_decide_eq_false_2.
Qed.

Lemma str_int_Ok n :
  (str_digits n <= int_max_str_digits)%nat → str_int n = Ok (decimal n).
Proof. intros Hn. unfold str_int. by rewrite (proj2 (Nat.leb_le _ _) Hn). Qed.

Lemma str_int_Raise n :
  (int_max_str_digits < str_digits n)%nat → str_int n = Raise ValueError.
Proof. intros Hn. unfold str_int. by rewrite (proj2 (Nat.leb_gt _ _) Hn). Qed.

Lemma str_int_cases n :
  str_int n = Ok (decimal n) ∨ str_int n = Raise ValueError.
Proof. unfold str_int. destruct (_ <=? _)%nat; auto. Qed.

Lemma get_fixed_spec_supported specs spec eol_supported r :
  specifiers specs = [spec] → operator spec = ">=" →
  last eol_supported = Some r →
  get_fixed_spec specs eol_supported =
    let* major_str := str_int (major (python_ver r)) in
    let* minor_str := str_int (minor (python_ver r) + 1) in
    Ok (">=" +:+ major_str +:+ "." +:+ minor_str).
Proof.
  intros Hspecs Hop Hlast. unfold get_fixed_spec.
  rewrite Hspecs. simpl. rewrite Hop, Hlast. reflexivity.
Qed.

(** C2, as the code has it: with one clause whose operator is [>=] and a
    non-empty ascending overlap, the repair reads the last release of the
    overlap, which no release of the overlap exceeds; it returns [>=M.(N+1)]
    for its major [M] and minor [N] when [M] and [N+1] have at most 4300
    digits, and raises [ValueError] when one of them has more. *)
Theorem get_fixed_spec_ge specs spec (eol_supported : list PythonRelease) :
  specifiers specs = [spec] → operator spec = ">=" →
  eol_supported ≠ [] → ascending eol_supported →
  ∃ cutoff,
    last eol_supported = Some cutoff ∧
    (∀ r, r ∈ eol_supported →
       Version_lt (python_ver cutoff) (python_ver r) = false) ∧
    ((str_digits (major (python_ver cutoff)) <= int_max_str_digits)%nat →
     (str_digits (minor (python_ver cutoff) + 1) <= int_max_str_digits)%nat →
     get_fixed_spec specs eol_supported =
       Ok (">=" +:+ decimal (major (python_ver cutoff)) +:+ "." +:+
           decimal (minor (python_ver cutoff) + 1))) ∧
    ((int_max_str_digits < str_digits (major (python_ver cutoff)))%nat ∨
     (int_max_str_digits < str_digits (minor (python_ver cutoff) + 1))%nat →
     get_fixed_spec specs eol_supported = Raise ValueError).
Proof.
  intros Hspecs Hop Hne Hasc.
  apply last_is_Some in Hne as [cutoff Hlast].
  exists cutoff. split; [done|]. split; [|split].
  - intros r Hr.
    by eapply (ascending_last python_ver Version_lt Version_lt_asym).
  - intros Hmajor Hminor.
    rewrite (get_fixed_spec_supported _ spec _ cutoff) by done.
    by rewrite (str_int_Ok _ Hmajor), (str_int_Ok _ Hminor).
  - intros Hlong.
    rewrite (get_fixed_spec_supported _ spec _ cutoff) by done.
    destruct Hlong as [Hlong|Hlong].
    + by rewrite (str_int_Raise _ Hlong).
    + rewrite (str_int_Raise _ Hlong).
      by destruct (str_int_cases (major (python_ver cutoff))) as [-> | ->].
Qed.

(** C3: on a non-empty overlap the repair raises [UnsupportedFixError]
    exactly when the specifier set is not a single clause whose operator is
    [>=]. *)
Theorem get_fixed_spec_unsupported specs (eol_supported : list PythonRelease) :
  eol_supported ≠ [] →
  (get_fixed_spec specs eol_supported = Raise UnsupportedFixError ↔
   ¬ ∃ spec, specifiers specs = [spec] ∧ operator spec = ">=").
Proof.
  intros [r Hlast]%last_is_Some. unfold get_fixed_spec.
  destruct (specifiers specs) as [|spec [|spec' l]] eqn:Hspecs; simpl.
  - split; [|done]. intros _ (spec & ? & _). done.
  - destruct (String.eqb_spec (operator spec) ">=") as [Hop|Hop]; simpl.
    + rewrite Hlast. simpl. split; [|intros []; by exists spec].
      destruct (str_int_cases (major (python_ver r))) as [-> | ->];
        destruct (str_int_cases (minor (python_ver r) + 1)) as [-> | ->]; done.
    + split; [|done]. intros _ (spec' & ? & ?). congruence.
  - split; [|done]. intros _ (spec0 & ? & _). done.
Qed.

(** On a non-empty overlap [eol_supported[-1]] is in bounds: what is left
    to raise is the refusal of the shape and the limit of digits of
    [str]. *)
Lemma get_fixed_spec_no_IndexError specs (eol_supported : list PythonRelease) :
  eol_supported ≠ [] →
  (∃ new_spec, get_fixed_spec specs eol_supported = Ok new_spec) ∨
  get_fixed_spec specs eol_supported = Raise UnsupportedFixError ∨
  get_fixed_spec specs eol_supported = Raise ValueError.
Proof.
  intros [r Hlast]%last_is_Some. unfold get_fixed_spec.
  destruct (specifiers specs) as [|spec [|spec' l]]; simpl; [by auto| |by auto].
  destruct (String.eqb (operator spec) ">="); simpl; [|by auto].
  rewrite Hlast. simpl.
  destruct (str_int_cases (major (python_ver r))) as [-> | ->]; simpl; [|by auto].
  destruct (str_int_cases (minor (python_ver r) + 1)) as [-> | ->]; simpl;
    [left; eauto|by auto].
Qed.

Lemma eol_covered_elem_of utc_today specs release_cycle use_system_date r :
  r ∈ eol_covered utc_today specs release_cycle use_system_date ↔
  r ∈ release_cycle ∧ contains specs (python_ver r) = true ∧
  is_eol utc_today r use_system_date = true.
Proof.
  unfold eol_covered.
  rewrite !list_elem_of_In, filter_In, andb_true_iff. done.
Qed.

Lemma eol_overlap_ascending utc_today specs release_cycle use_system_date :
  ascending (eol_overlap utc_today specs release_cycle use_system_date).
Proof.
  apply sorted_ascending; [apply Version_lt_asym|].
  intros a b c. apply Version_lt_negtrans.
Qed.

(** C4: the overlap holds exactly the releases of the cycle that the
    specifier admits and that are EOL, as often as the cycle holds them; it
    is ascending by version; and it is empty exactly when no admitted release
    is EOL. *)
Theorem eol_overlap_spec utc_today specs release_cycle use_system_date :
  let overlap := eol_overlap utc_today specs release_cycle use_system_date in
  (∀ r, r ∈ overlap ↔
        r ∈ release_cycle ∧ contains specs (python_ver r) = true ∧
        is_eol utc_today r use_system_date = true) ∧
  overlap ≡ₚ
    List.filter
      (λ r, contains specs (python_ver r) && is_eol utc_today r use_system_date)
      release_cycle ∧
  ascending overlap ∧
  (overlap = [] ↔
   ∀ r, r ∈ release_cycle → contains specs (python_ver r) = true →
        is_eol utc_today r use_system_date = false).
Proof.
  intros overlap. subst overlap. unfold eol_overlap.
  split; [|split; [|split]].
  - intros r. rewrite sorted_Permutation. apply eol_covered_elem_of.
  - apply sorted_Permutation.
  - apply eol_overlap_ascending.
  - rewrite sorted_nil_iff. split.
    + intros Hnil r Hr Hc.
      destruct (is_eol utc_today r use_system_date) eqn:Heol; [|done].
      assert (r ∈ eol_covered utc_today specs release_cycle use_system_date)
        as Hin by by apply eol_covered_elem_of.
      rewrite Hnil in Hin. by apply elem_of_nil in Hin.
    + intros Hall. apply elem_of_nil_inv. intros r Hr.
      apply eol_covered_elem_of in Hr as (Hr & Hc & Heol).
      by rewrite (Hall r Hr Hc) in Heol.
Qed.
End release_facts.

(** ** Strings, integers and the parsing of dates *)

Lemma digit_val_digit_char k : 0 <= k <= 9 → digit_val (digit_char k) = Some k.
Proof.
  intros Hk.
  assert (k = 0 ∨ k = 1 ∨ k = 2 ∨ k = 3 ∨ k = 4 ∨ k = 5 ∨ k = 6 ∨ k = 7 ∨
          k = 8 ∨ k = 9) as Hcases by lia.
  repeat (destruct Hcases as [->|Hcases]; [reflexivity|]).
  by subst.
Qed.

Lemma is_digit_digit_char k : 0 <= k <= 9 → is_digit (digit_char k) = true.
Proof. intros Hk. unfold is_digit. by rewrite digit_val_digit_char. Qed.

(** A digit is neither white space nor a sign. *)
Lemma is_digit_plain c :
  is_digit c = true →
  Ascii.is_space c = false ∧ Ascii.eqb c "+" = false ∧ Ascii.eqb c "-" = false.
Proof. destruct c as [[] [] [] [] [] [] [] []]; done. Qed.

Lemma all_digits_no_dash s : all_digits s = true → has_char "-" s = false.
Proof.
  induction s as [|c s IH]; simpl; [done|].
  intros [Hc Hs]%andb_true_iff.
  destruct (is_digit_plain c Hc) as (_ & _ & ->). by apply IH.
Qed.

Lemma all_digits_pad w n : all_digits (pad w n) = true.
Proof.
  induction w as [|w IH]; simpl; [done|].
  rewrite IH, is_digit_digit_char; [done|].
  pose proof (Z.mod_pos_bound (n / 10 ^ Z.of_nat w) 10). lia.
Qed.

Lemma append_char c s : String c EmptyString +:+ s = String c s.
Proof. reflexivity. Qed.

Lemma split_no_sep sep s : has_char sep s = false → split sep s = [s].
Proof.
  induction s as [|c s IH]; simpl; [done|].
  intros [-> Hs]%orb_false_iff. by rewrite IH.
Qed.

Lemma split_app_sep sep a b :
  has_char sep a = false → split sep (a +:+ String sep b) = a :: split sep b.
Proof.
  induction a as [|c a IH]; simpl.
  - intros _. by rewrite Ascii.eqb_refl.
  - intros [-> Ha]%orb_false_iff. by rewrite IH.
Qed.

Lemma lstrip_digits c s : is_digit c = true → lstrip (String c s) = String c s.
Proof. intros Hc. simpl. by destruct (is_digit_plain c Hc) as (-> & _). Qed.

Lemma rstrip_digits s : all_digits s = true → rstrip s = s.
Proof.
  induction s as [|c s IH]; simpl; [done|].
  intros [Hc Hs]%andb_true_iff. rewrite IH by done.
  destruct s; [|done]. by destruct (is_digit_plain c Hc) as (-> & _).
Qed.

Lemma int_digits_all_digits s acc n :
  all_digits s = true →
  int_digits s acc n =
    (λ v, (v, (n + String.length s)%nat)) <$> digits_value s acc.
Proof.
  revert acc n. induction s as [|c s IH]; intros acc n; simpl.
  - intros _. by rewrite Nat.add_0_r.
  - intros [Hc Hs]%andb_true_iff. unfold is_digit in Hc.
    destruct (digit_val c) as [d|]; [|done]. simpl.
    rewrite IH by done. by rewrite Nat.add_succ_comm.
Qed.

(** [int] reads a text of at most 4300 digits as the number it spells. *)
Lemma py_int_all_digits s :
  all_digits s = true → s ≠ EmptyString →
  (String.length s <= int_max_str_digits)%nat →
  py_int s = digits_value s 0.
Proof.
  intros Hs Hne Hlen. destruct s as [|c s]; [done|].
  pose proof Hs as [Hc Hs']%andb_true_iff.
  unfold py_int. rewrite lstrip_digits, rstrip_digits by done.
  destruct (is_digit_plain c Hc) as (_ & -> & ->).
  unfold int_unsigned. simpl. unfold is_digit in Hc.
  destruct (digit_val c) as [d|]; [|done]. simpl.
  rewrite int_digits_all_digits by done.
  change (10 * 0 + d) with d.
  destruct (digits_value s d) as [v|]; [|done].
  cbn [fmap option_fmap option_map].
  change (1 + String.length s)%nat with (String.length (String c s)).
  by rewrite (proj2 (Nat.leb_le _ _)) by exact Hlen.
Qed.

Lemma py_int_pad4 y : 0 <= y <= 9999 → py_int (pad 4 y) = Some y.
Proof.
  intros Hy. rewrite py_int_all_digits;
    [|apply all_digits_pad|done|by apply Nat.leb_le].
  change (pad 4 y) with
    (String (digit_char (y / 1000 mod 10)) (String (digit_char (y / 100 mod 10))
      (String (digit_char (y / 10 mod 10)) (String (digit_char (y / 1 mod 10)) ""))))%string.
  cbn [digits_value]. rewrite Z.div_1_r.
  rewrite !digit_val_digit_char by (Z.to_euclidean_division_equations; lia).
  cbn [mbind option_bind]. f_equal. Z.to_euclidean_division_equations; lia.
Qed.

Lemma py_int_pad2 m : 0 <= m <= 99 → py_int (pad 2 m) = Some m.
Proof.
  intros Hm. rewrite py_int_all_digits;
    [|apply all_digits_pad|done|by apply Nat.leb_le].
  change (pad 2 m) with
    (String (digit_char (m / 10 mod 10)) (String (digit_char (m / 1 mod 10)) ""))%string.
  cbn [digits_value]. rewrite Z.div_1_r.
  rewrite !digit_val_digit_char by (Z.to_euclidean_division_equations; lia).
  cbn [mbind option_bind]. f_equal. Z.to_euclidean_division_equations; lia.
Qed.

Section parse_date_facts.
Context `{Datetime}.

(** C5, as the code has it: a valid date written [YYYY-MM-DD] parses to that
    date; a year and a month written [YYYY-MM] parse to the first day of that
    month; a text that the dashes do not cut in two or three parts raises
    [ValueError]. *)
Theorem parse_eol_date_spec :
  (∀ d, valid_date d = true → _parse_eol_date (isoformat d) = Ok d) ∧
  (∀ y m, 1 <= y <= 9999 → 1 <= m <= 12 →
     _parse_eol_date (pad 4 y +:+ "-" +:+ pad 2 m) = Ok (mk_date y m 1)) ∧
  (∀ s, length (split "-" s) ≠ 2%nat → length (split "-" s) ≠ 3%nat →
     _parse_eol_date s = Raise ValueError).
Proof.
  split; [|split].
  - intros d Hd. unfold _parse_eol_date.
    assert (split "-" (isoformat d) =
            [pad 4 (year d); pad 2 (month d); pad 2 (day d)]) as ->.
    { unfold isoformat. rewrite !append_char.
      rewrite split_app_sep by apply all_digits_no_dash, all_digits_pad.
      rewrite split_app_sep by apply all_digits_no_dash, all_digits_pad.
      by rewrite split_no_sep by apply all_digits_no_dash, all_digits_pad. }
    by rewrite fromisoformat_isoformat.
  - intros y m Hy Hm. unfold _parse_eol_date. rewrite append_char.
    rewrite split_app_sep by apply all_digits_no_dash, all_digits_pad.
    rewrite split_no_sep by apply all_digits_no_dash, all_digits_pad.
    rewrite py_int_pad4, py_int_pad2 by lia. simpl.
    unfold date_new, fits_c_int, valid_ymd, MINYEAR, MAXYEAR.
    assert (1 <= days_in_month y m).
    { unfold days_in_month. repeat case_match; lia. }
    repeat match goal with
           | |- context [?a <=? ?b] =>
               rewrite (proj2 (Z.leb_le a b)) by lia
           end.
    reflexivity.
  - intros s H2 H3. unfold _parse_eol_date.
    destruct (split "-" s) as [|a [|b [|c [|d l]]]]; simpl in *; done.
Qed.
End parse_date_facts.

(** ** The loader *)

Lemma rmap_Ok {A B} (f : A → result B) l ys :
  rmap f l = Ok ys ↔ Forall2 (λ x y, f x = Ok y) l ys.
Proof.
  revert ys. induction l as [|x l IH]; intros ys; simpl.
  - split; [intros [= <-]; constructor|by inversion 1].
  - destruct (f x) as [y|e] eqn:Hx; simpl.
    + destruct (rmap f l) as [ys'|e] eqn:Hl; simpl.
      * split; [intros [= <-]; constructor; [done|by apply IH]|].
        inversion 1 as [|? y' ? ys'' Hy Hys]; subst.
        apply IH in Hys. congruence.
      * split; [done|]. inversion 1 as [|? y' ? ys'' Hy Hys]; subst.
        by apply IH in Hys.
    + split; [done|]. inversion 1; congruence.
Qed.

Lemma rmap_Raise {A B} (f : A → result B) l e :
  rmap f l = Raise e → ∃ x, x ∈ l ∧ f x = Raise e.
Proof.
  induction l as [|x l IH]; simpl; [done|].
  destruct (f x) as [y|e'] eqn:Hx; simpl.
  - destruct (rmap f l) as [ys|e'] eqn:Hl; simpl; [done|].
    intros [= ->]. destruct IH as (x' & ? & ?); [done|].
    exists x'. split; [by right|done].
  - intros [= ->]. exists x. split; [by left|done].
Qed.

Lemma rmap_Raise_elem_of {A B} (f : A → result B) l x e :
  x ∈ l → f x = Raise e → ∃ e', rmap f l = Raise e'.
Proof.
  intros Hx Hfx. induction l as [|a l IH]; [by apply elem_of_nil in Hx|].
  simpl. apply elem_of_cons in Hx as [->|Hx].
  - rewrite Hfx. simpl. eauto.
  - destruct (f a) as [y|e1]; simpl; [|by eauto].
    destruct (IH Hx) as [e' ->]. simpl. eauto.
Qed.

Lemma ReleasePhase_new_value p : ReleasePhase_new (ReleasePhase_value p) = Ok p.
Proof. by destruct p. Qed.

Lemma ReleasePhase_new_Ok s p : ReleasePhase_new s = Ok p → ReleasePhase_value p = s.
Proof.
  unfold ReleasePhase_new. destruct (find _ _) as [q|] eqn:Hfind; [|done].
  intros [= ->]. apply find_some in Hfind as [_ Hp].
  by apply bool_decide_eq_true in Hp.
Qed.

Lemma ReleasePhase_new_unknown s :
  (∀ p, ReleasePhase_value p ≠ s) → ReleasePhase_new s = Raise ValueError.
Proof.
  intros Hs. destruct (ReleasePhase_new s) as [p|e] eqn:Hnew.
  - apply ReleasePhase_new_Ok in Hnew. by destruct (Hs p).
  - unfold ReleasePhase_new in Hnew. by destruct (find _ _).
Qed.

Section loader_facts.
Context `{Datetime} `{Packaging}.

Lemma parse_eol_date_raises s e :
  _parse_eol_date s = Raise e → e = ValueError ∨ e = OverflowError.
Proof.
  unfold _parse_eol_date, date_new, or_raise, rbind.
  repeat (case_match; simpl; try done); intros [= <-]; simplify_eq; auto.
Qed.

(** Every date the parser returns is a date of the calendar. *)
Lemma parse_eol_date_valid s d : _parse_eol_date s = Ok d → valid_date d = true.
Proof.
  unfold _parse_eol_date, date_new, or_raise, rbind.
  repeat (case_match; simpl; try done); intros [= <-]; simplify_eq.
  - done.
  - by eapply fromisoformat_valid.
Qed.

Lemma from_json_Ok ver metadata r :
  from_json ver metadata = Ok r ↔
  ∃ s e, Version_new ver = Some (python_ver r) ∧
         metadata !! "status" = Some s ∧ ReleasePhase_new s = Ok (status r) ∧
         metadata !! "end_of_life" = Some e ∧
         _parse_eol_date e = Ok (end_of_life r).
Proof.
  unfold from_json, getitem. split.
  - destruct (Version_new ver) as [v|]; simpl; [|done].
    destruct (metadata !! "status") as [s|]; simpl; [|done].
    destruct (ReleasePhase_new s) as [p|] eqn:Hs; simpl; [|done].
    destruct (metadata !! "end_of_life") as [e|]; simpl; [|done].
    destruct (_parse_eol_date e) as [d|] eqn:He; simpl; [|done].
    intros [= <-]. by exists s, e.
  - intros (s & e & -> & -> & Hs & -> & He). simpl. rewrite Hs. simpl.
    rewrite He. simpl. by destruct r.
Qed.

Lemma from_json_raises ver metadata e :
  from_json ver metadata = Raise e →
  e = InvalidVersion ∨ e = KeyError ∨ e = ValueError ∨ e = OverflowError.
Proof.
  unfold from_json, getitem.
  destruct (Version_new ver) as [v|]; simpl; [|intros [= <-]; auto].
  destruct (metadata !! "status") as [s|]; simpl; [|intros [= <-]; auto].
  destruct (ReleasePhase_new s) as [p|e'] eqn:Hs; simpl.
  - destruct (metadata !! "end_of_life") as [d|]; simpl; [|intros [= <-]; auto].
    destruct (_parse_eol_date d) as [?|e'] eqn:Hd; simpl; [done|].
    intros [= <-]. apply parse_eol_date_raises in Hd as [->| ->]; auto.
  - intros [= <-]. unfold ReleasePhase_new in Hs.
    destruct (find _ _); simplify_eq/=. auto.
Qed.

Lemma load_raises contents e :
  _get_cached_release_cycle contents = Raise e →
  e = InvalidVersion ∨ e = KeyError ∨ e = ValueError ∨ e = OverflowError.
Proof.
  unfold _get_cached_release_cycle.
  destruct (rmap _ contents) as [rs|e'] eqn:Hmap; simpl; [done|].
  intros [= <-]. apply rmap_Raise in Hmap as ([ver m] & _ & Hraise).
  by eapply from_json_raises.
Qed.

(** C6, as the code has it: an entry whose phase is not one of the five
    values, or whose date does not parse, makes the whole load raise; when
    every key is a version, every phase one of the five values and every date
    parses, the load returns the releases built from the entries, each
    once. *)
Theorem load_all_or_nothing (contents : cache) :
  (∀ ver metadata, (ver, metadata) ∈ contents →
     (∃ s, metadata !! "status" = Some s ∧ ∀ p, ReleasePhase_value p ≠ s) ∨
     (∃ s e, metadata !! "end_of_life" = Some s ∧ _parse_eol_date s = Raise e) →
     ∃ e, _get_cached_release_cycle contents = Raise e) ∧
  ((∀ ver metadata, (ver, metadata) ∈ contents →
      is_Some (Version_new ver) ∧
      (∃ p, metadata !! "status" = Some (ReleasePhase_value p)) ∧
      (∃ s d, metadata !! "end_of_life" = Some s ∧ _parse_eol_date s = Ok d)) →
   ∃ releases built,
     _get_cached_release_cycle contents = Ok releases ∧
     Forall2 (λ vm r, from_json vm.1 vm.2 = Ok r) contents built ∧
     releases ≡ₚ built).
Proof.
  split.
  - intros ver metadata Hin Hbad.
    assert (∃ e, from_json ver metadata = Raise e) as [e He].
    { destruct (from_json ver metadata) as [r|e] eqn:Hr; [|by eauto].
      apply from_json_Ok in Hr as (s & d & _ & Hs & Hp & Hd & Hdate).
      destruct Hbad as [(s' & Hs' & Hunknown)|(d' & e & Hd' & Hraise)].
      - rewrite Hs in Hs'. injection Hs' as <-.
        apply ReleasePhase_new_Ok in Hp. by destruct (Hunknown (status r)).
      - rewrite Hd in Hd'. injection Hd' as <-. congruence. }
    unfold _get_cached_release_cycle.
    destruct (rmap_Raise_elem_of (λ vm, from_json vm.1 vm.2) contents
                (ver, metadata) e Hin He) as [e' ->].
    simpl. eauto.
  - intros Hall. unfold _get_cached_release_cycle.
    destruct (rmap (λ vm, from_json vm.1 vm.2) contents) as [built|e] eqn:Hmap.
    + cbn [rbind]. eexists _, built. split; [done|]. split; [by apply rmap_Ok|].
      apply sorted_Permutation.
    + apply rmap_Raise in Hmap as ([ver metadata] & Hin & Hraise).
      destruct (Hall ver metadata Hin) as ([v Hv] & [p Hp] & (s & d & Hs & Hd)).
      simpl in Hraise. unfold from_json, getitem in Hraise.
      rewrite Hv, Hp in Hraise. simpl in Hraise.
      rewrite ReleasePhase_new_value, Hs in Hraise. simpl in Hraise.
      by rewrite Hd in Hraise.
Qed.

Lemma strictly_descending_distinct (l : list PythonRelease) :
  strictly_descending l → distinct_versions l.
Proof.
  unfold strictly_descending, strictly_descending_by.
  induction l as [|x l IH]; intros Hstrict i j a b Hij Ha Hb.
  { by rewrite lookup_nil in Ha. }
  apply StronglySorted_cons in Hstrict as [Hx Hl].
  rewrite Forall_forall in Hx.
  destruct i as [|i], j as [|j]; simpl in Ha, Hb; simplify_eq.
  - right. by eapply Hx, list_elem_of_lookup_2.
  - left. by eapply Hx, list_elem_of_lookup_2.
  - apply (IH Hl i j); [lia|done..].
Qed.

Lemma descending_distinct (l : list PythonRelease) :
  descending l → distinct_versions l → strictly_descending l.
Proof.
  unfold descending, descending_by, strictly_descending, strictly_descending_by.
  induction l as [|x l IH]; intros Hdesc Hdist; [constructor|].
  apply StronglySorted_cons in Hdesc as [Hx Hl].
  apply StronglySorted_cons. split.
  - apply Forall_forall. intros y Hy.
    apply list_elem_of_lookup in Hy as [j Hj].
    rewrite Forall_forall in Hx.
    destruct (Hdist 0%nat (S j) x y) as [Hlt|Hlt]; [done..| |done].
    rewrite Hx in Hlt; [done|]. by eapply list_elem_of_lookup_2.
  - apply IH; [done|]. intros i j a b Hij Ha Hb.
    apply (Hdist (S i) (S j)); [lia|done..].
Qed.

(** C8, as the code has it: whatever the order of the entries of the cache,
    the loaded releases are in descending order, no release below a later one;
    they are in strictly descending order exactly when no two of them have
    equal versions. *)
Theorem load_descending (contents : cache) releases :
  _get_cached_release_cycle contents = Ok releases →
  descending releases ∧
  (distinct_versions releases ↔ strictly_descending releases).
Proof.
  unfold _get_cached_release_cycle.
  destruct (rmap _ contents) as [built|e]; simpl; [|done].
  intros [= <-].
  assert (descending (sorted python_ver Version_lt built true)) as Hdesc.
  { apply sorted_descending; [apply Version_lt_asym|].
    intros a b c. apply Version_lt_negtrans. }
  split; [done|]. split; [by apply descending_distinct|].
  apply strictly_descending_distinct.
Qed.
End loader_facts.

(** ** The check of one file *)

Section check_facts.
Context `{Datetime} `{Packaging}.

Lemma check_python_support_not_found utc_today w toml_file contents cache_json
    use_system_date fix_ :
  files w !! toml_file = Some contents →
  default ∅ (contents !! "project") !! "requires-python" = None ∨
  default ∅ (contents !! "project") !! "requires-python" = Some EmptyString →
  check_python_support utc_today w toml_file cache_json use_system_date fix_ =
    lookup_error w.
Proof.
  intros Hfile Hreq. unfold check_python_support. rewrite Hfile.
  by destruct Hreq as [-> | ->].
Qed.

Section loaded.
Variables (utc_today : date) (w : world) (toml_file : string) (contents : toml)
  (requires_python : string) (package_spec : SpecifierSet) (cache_json : cache)
  (release_cycle : list PythonRelease) (use_system_date : bool).
Hypothesis Hfile : files w !! toml_file = Some contents.
Hypothesis Hrequires :
  default ∅ (contents !! "project") !! "requires-python" = Some requires_python.
Hypothesis Hnonempty : requires_python ≠ EmptyString.
Hypothesis Hspec : SpecifierSet_new requires_python = Some package_spec.
Hypothesis Hcycle : _get_cached_release_cycle cache_json = Ok release_cycle.

Let overlap : list PythonRelease :=
  eol_overlap utc_today package_spec release_cycle use_system_date.

Lemma check_python_support_loaded fix_ :
  check_python_support utc_today w toml_file cache_json use_system_date fix_ =
    match eol_covered utc_today package_spec release_cycle use_system_date with
    | [] => clean w
    | _ :: _ =>
        if fix_ then
          match get_fixed_spec package_spec overlap with
          | Raise e => (w, Raise e)
          | Ok new_spec => fixed w toml_file contents new_spec overlap
          end
        else violation w overlap
    end.
Proof using Hfile Hrequires Hnonempty Hspec Hcycle.
  unfold check_python_support. rewrite Hfile, Hrequires.
  destruct requires_python as [|c s] eqn:Hreq; [done|].
  rewrite Hspec, Hcycle. subst overlap. unfold eol_overlap.
  destruct (eol_covered _ _ _ _) as [|r l]; [done|].
  destruct fix_; [|done]. by destruct (get_fixed_spec _ _).
Qed.

Lemma overlap_nil_iff :
  overlap = [] ↔
  eol_covered utc_today package_spec release_cycle use_system_date = [].
Proof. apply sorted_nil_iff. Qed.

Lemma check_python_support_clean fix_ :
  overlap = [] →
  check_python_support utc_today w toml_file cache_json use_system_date fix_ =
    clean w.
Proof using Hfile Hrequires Hnonempty Hspec Hcycle.
  intros Hnil%overlap_nil_iff. by rewrite check_python_support_loaded, Hnil.
Qed.

Lemma check_python_support_violation :
  overlap ≠ [] →
  check_python_support utc_today w toml_file cache_json use_system_date false =
    violation w overlap.
Proof using Hfile Hrequires Hnonempty Hspec Hcycle.
  intros Hne. rewrite check_python_support_loaded.
  destruct (eol_covered _ _ _ _) eqn:Hcov; [|done].
  by apply overlap_nil_iff in Hcov.
Qed.

Lemma check_python_support_fix :
  overlap ≠ [] →
  check_python_support utc_today w toml_file cache_json use_system_date true =
    match get_fixed_spec package_spec overlap with
    | Raise e => (w, Raise e)
    | Ok new_spec => fixed w toml_file contents new_spec overlap
    end.
Proof using Hfile Hrequires Hnonempty Hspec Hcycle.
  intros Hne. rewrite check_python_support_loaded.
  destruct (eol_covered _ _ _ _) eqn:Hcov; [|done].
  by apply overlap_nil_iff in Hcov.
Qed.
End loaded.

(** C9, as the code has it: when the overlap of the declared specifier with
    the EOL releases is not empty and the repair returns a new specifier, the
    check with [fix] writes that specifier into the [requires-python] of the
    file and raises [EOLPythonError] with the ascending list of the EOL
    versions.  That is the exception, message and all, that the check without
    [fix] raises, and [main] prints the same line for both: the fix shows in
    the file only.  A clean file, which returns, and a missing
    [requires-python], which raises another exception, are told apart from
    both. *)
Theorem check_python_support_fixed utc_today w toml_file contents
    requires_python package_spec cache_json release_cycle use_system_date
    new_spec :
  files w !! toml_file = Some contents →
  default ∅ (contents !! "project") !! "requires-python" = Some requires_python →
  requires_python ≠ EmptyString →
  SpecifierSet_new requires_python = Some package_spec →
  _get_cached_release_cycle cache_json = Ok release_cycle →
  eol_overlap utc_today package_spec release_cycle use_system_date ≠ [] →
  get_fixed_spec package_spec
    (eol_overlap utc_today package_spec release_cycle use_system_date) =
    Ok new_spec →
  let overlap := eol_overlap utc_today package_spec release_cycle use_system_date in
  let with_fix :=
    check_python_support utc_today w toml_file cache_json use_system_date true in
  let without_fix :=
    check_python_support utc_today w toml_file cache_json use_system_date false in
  ascending overlap ∧
  with_fix.2 = Raise (EOLPythonError (eol_message overlap)) ∧
  without_fix = (w, Raise (EOLPythonError (eol_message overlap))) ∧
  report_line toml_file with_fix.2 = report_line toml_file without_fix.2 ∧
  files with_fix.1 =
    <[toml_file :=
        <["project" :=
            <["requires-python" := new_spec]> (default ∅ (contents !! "project"))]>
          contents]> (files w) ∧
  (∃ doc, files with_fix.1 !! toml_file = Some doc ∧
          default ∅ (doc !! "project") !! "requires-python" = Some new_spec) ∧
  with_fix.2 ≠ Ok tt ∧
  with_fix.2 ≠ Raise RequiresPythonNotFoundError.
Proof.
  intros Hfile Hreq Hne Hspec Hcycle Hov Hfix overlap with_fix without_fix.
  assert (with_fix = fixed w toml_file contents new_spec overlap) as ->.
  { subst with_fix. erewrite check_python_support_fix by done.
    by rewrite Hfix. }
  assert (without_fix = violation w overlap) as ->.
  { by eapply check_python_support_violation. }
  unfold fixed, violation, write_file, toml in *. simpl.
  split; [apply eol_overlap_ascending|].
  repeat (split; [done|]).
  split; [|done]. eexists. split; [apply lookup_insert_eq|].
  rewrite lookup_insert_eq. simpl. apply lookup_insert_eq.
Qed.

(** C10: on a non-empty overlap the index of [eol_supported[-1]] is in
    bounds: [get_fixed_spec] does not raise [IndexError] (it returns, or it
    refuses the shape with [UnsupportedFixError], or [str] refuses a number
    of more than 4300 digits with [ValueError]); and [check_python_support],
    which calls it on a non-empty overlap only, never raises
    [IndexError]. *)
Theorem get_fixed_spec_in_bounds :
  (∀ specs (eol_supported : list PythonRelease),
     eol_supported ≠ [] →
     is_Some (last eol_supported) ∧
     get_fixed_spec specs eol_supported ≠ Raise IndexError ∧
     ((∃ new_spec, get_fixed_spec specs eol_supported = Ok new_spec) ∨
      get_fixed_spec specs eol_supported = Raise UnsupportedFixError ∨
      get_fixed_spec specs eol_supported = Raise ValueError)) ∧
  (∀ utc_today w toml_file cache_json use_system_date fix_,
     (check_python_support utc_today w toml_file cache_json use_system_date fix_).2
       ≠ Raise IndexError).
Proof.
  split.
  { intros specs eol_supported Hne. split; [by apply last_is_Some|].
    pose proof (get_fixed_spec_no_IndexError specs eol_supported Hne) as Hcases.
    split; [|done]. by destruct Hcases as [[new_spec ->]|[-> | ->]]. }
  intros utc_today w toml_file cache_json use_system_date fix_.
  unfold check_python_support.
  destruct (files w !! toml_file) as [contents|]; [|done].
  destruct (default ∅ (contents !! "project") !! "requires-python")
    as [[|c s]|]; [done| |done].
  destruct (SpecifierSet_new _) as [package_spec|]; [|done].
  destruct (_get_cached_release_cycle cache_json) as [release_cycle|e] eqn:Hload.
  2:{ simpl. intros [= ->].
      apply load_raises in Hload as [|[|[|]]]; done. }
  destruct (eol_covered _ _ _ _) as [|r l]; [done|].
  destruct fix_; [|done].
  destruct (get_fixed_spec_no_IndexError package_spec
              (sorted python_ver Version_lt (r :: l) false))
    as [[new_spec Hfix]|[Hfix|Hfix]].
  { by rewrite sorted_nil_iff. }
  all: by rewrite Hfix.
Qed.

(** ** The loop over the files *)

(** [main] catches [EOLPythonError] and [RequiresPythonNotFoundError]: the
    file is reported, the exit code becomes 1 and the loop goes on. *)
Lemma main_loop_caught utc_today cache_json cache_only fix_ file rest w w' ec out e :
  check_python_support utc_today w file cache_json (negb cache_only) fix_ = (w', Raise e) →
  (∃ msg, e = EOLPythonError msg) ∨ e = RequiresPythonNotFoundError →
  ∃ line,
    main_loop utc_today cache_json cache_only fix_ (file :: rest) w ec out =
    main_loop utc_today cache_json cache_only fix_ rest w' 1 (out ++ [line]).
Proof.
  intros Hcheck He. simpl. rewrite Hcheck.
  destruct He as [[msg ->]| ->]; eauto.
Qed.

(** Any other exception leaves [main] at once: the files after it are not
    looked at. *)
Lemma main_loop_uncaught utc_today cache_json cache_only fix_ file rest w w' ec out e :
  check_python_support utc_today w file cache_json (negb cache_only) fix_ = (w', Raise e) →
  (∀ msg, e ≠ EOLPythonError msg) → e ≠ RequiresPythonNotFoundError →
  main_loop utc_today cache_json cache_only fix_ (file :: rest) w ec out =
    (w', out, Raise e).
Proof.
  intros Hcheck He1 He2. simpl. rewrite Hcheck.
  destruct e; try done. by destruct (He1 msg).
Qed.
End check_facts.

(** ** The properties on the sample data *)

Section examples.
Import Ref Sample.

Lemma is_eol_spec_witness :
  is_eol utc_today py38 false = true ∧
  (is_eol utc_today py310 true = true ↔ date_le (end_of_life py310) utc_today) ∧
  is_eol utc_today py314 false = false.
Proof.
  split; [|split].
  - exact (proj1 (is_eol_spec utc_today py38 false) eq_refl).
  - exact (proj1 (proj2 (is_eol_spec utc_today py310 true))
             ltac:(discriminate) eq_refl).
  - exact (proj2 (proj2 (is_eol_spec utc_today py314 false))
             ltac:(discriminate) eq_refl).
Defined.

Lemma eol_overlap_spec_witness :
  eol_overlap utc_today spec_ge38 release_cycle false = [py38; py39] ∧
  eol_overlap utc_today spec_ge38 release_cycle true = [py38; py39; py310] ∧
  ascending [py38; py39; py310].
Proof.
  split; [reflexivity|]. split; [reflexivity|].
  exact (proj1 (proj2 (proj2
           (eol_overlap_spec utc_today spec_ge38 release_cycle true)))).
Defined.

Lemma get_fixed_spec_ge_witness :
  SpecifierSet_new ">=3.8" = Some spec_ge38 ∧
  get_fixed_spec spec_ge38 [py38; py39] = Ok ">=3.10".
Proof.
  split; [reflexivity|].
  destruct (get_fixed_spec_ge spec_ge38 (">=", [3; 8]) [py38; py39])
    as (cutoff & Hlast & _ & Hfix & _).
  - reflexivity.
  - reflexivity.
  - discriminate.
  - repeat constructor.
  - injection Hlast as <-. apply Hfix; by apply Nat.leb_le.
Defined.

(** C2, against the claim: the specifier is one [>=] clause and the overlap
    is not empty, yet the repair returns no specifier: the minor plus one has
    4301 digits and [str] raises [ValueError]. *)
Lemma get_fixed_spec_huge_minor :
  specifiers spec_ge38 = [(">=", [3; 8])] ∧
  ascending [py_huge] ∧
  minor (python_ver py_huge) + 1 = ten_pow 4300 ∧
  str_digits (ten_pow 4300) = 4301%nat ∧
  get_fixed_spec spec_ge38 [py_huge] = Raise ValueError.
Proof.
  assert (minor (python_ver py_huge) + 1 = ten_pow 4300) as Hminor.
  { change (ten_pow 4300 - 1 + 1 = ten_pow 4300). apply Z.sub_add. }
  assert (str_digits (ten_pow 4300) = 4301%nat) as Hdigits.
  { unfold str_digits, decimal, ten_pow.
    set (u := Decimal.D1 (Nat.iter 4300 Decimal.D0 Decimal.Nil)).
    rewrite Z.abs_eq by apply N2Z.is_nonneg.
    change (Z.of_uint u) with (Z.of_int (Decimal.Pos u)).
    rewrite DecimalZ.to_of. subst u. vm_compute. reflexivity. }
  split; [reflexivity|]. split; [repeat constructor|].
  split; [exact Hminor|]. split; [exact Hdigits|].
  rewrite (get_fixed_spec_supported spec_ge38 (">=", [3; 8]) [py_huge] py_huge
             eq_refl eq_refl eq_refl).
  rewrite (str_int_Raise (minor (python_ver py_huge) + 1)).
  - by destruct (str_int_cases (major (python_ver py_huge))) as [-> | ->].
  - rewrite Hminor, Hdigits. apply Nat.ltb_lt. vm_compute. reflexivity.
Qed.

Lemma get_fixed_spec_unsupported_witness :
  SpecifierSet_new ">=3.8,<4.0" = Some spec_ge38_lt4 ∧
  get_fixed_spec spec_ge38_lt4 [py38; py39] = Raise UnsupportedFixError ∧
  SpecifierSet_new "==3.8" = Some spec_eq38 ∧
  get_fixed_spec spec_eq38 [py38] = Raise UnsupportedFixError.
Proof.
  split; [reflexivity|]. split; [|split; [reflexivity|]].
  - apply (get_fixed_spec_unsupported spec_ge38_lt4 [py38; py39]); [discriminate|].
    intros (spec & Hspecs & _). discriminate.
  - apply (get_fixed_spec_unsupported spec_eq38 [py38]); [discriminate|].
    intros (spec & Hspecs & Hop). injection Hspecs as <-. discriminate.
Defined.

Lemma parse_eol_date_spec_witness :
  _parse_eol_date "2023-06-27" = Ok (mk_date 2023 6 27) ∧
  _parse_eol_date "2023-06" = Ok (mk_date 2023 6 1) ∧
  _parse_eol_date "2023" = Raise ValueError ∧
  _parse_eol_date "garbage" = Raise ValueError.
Proof.
  destruct parse_eol_date_spec as (Hymd & Hym & Hother).
  split; [|split; [|split]].
  - exact (Hymd (mk_date 2023 6 27) eq_refl).
  - apply (Hym 2023 6); lia.
  - apply Hother; discriminate.
  - apply Hother; discriminate.
Defined.

(** C5, against the claim: [2023-6] has neither of the two shapes and parses
    all the same, to June 1, 2023. *)
Lemma parse_eol_date_unpadded :
  shape_YYYY_MM_DD "2023-6" = false ∧ shape_YYYY_MM "2023-6" = false ∧
  _parse_eol_date "2023-6" = Ok (mk_date 2023 6 1).
Proof. repeat split. Qed.
Lemma load_all_or_nothing_witness :
  (∃ e, _get_cached_release_cycle unknown_status_json = Raise e) ∧
  (∃ releases built,
     _get_cached_release_cycle release_cycle_json = Ok releases ∧
     Forall2 (λ vm r, from_json vm.1 vm.2 = Ok r) release_cycle_json built ∧
     releases ≡ₚ built).
Proof.
  split.
  - apply (proj1 (load_all_or_nothing unknown_status_json)
             "3.8" (metadata "retired" "2024-10-07")).
    + right. left.
    + left. exists "retired". split; [reflexivity|]. by intros [].
  - apply (proj2 (load_all_or_nothing release_cycle_json)).
    intros ver m Hin.
    repeat (apply elem_of_cons in Hin as [[= -> ->]|Hin]);
      [| | | |by apply elem_of_nil in Hin].
    + split; [by eexists|]. split; [by exists EOL|]. by eexists _, _.
    + split; [by eexists|]. split; [by exists BUGFIX|]. by eexists _, _.
    + split; [by eexists|]. split; [by exists EOL|]. by eexists _, _.
    + split; [by eexists|]. split; [by exists SECURITY|]. by eexists _, _.
Defined.

(** C6, against the claim: the phase is one of the five values and the date
    parses, yet the load raises, for the key is not a version. *)
Lemma load_bad_key :
  ReleasePhase_new "bugfix" = Ok BUGFIX ∧
  _parse_eol_date "2030-10" = Ok (mk_date 2030 10 1) ∧
  _get_cached_release_cycle bad_key_json = Raise InvalidVersion.
Proof. repeat split. Qed.

Lemma load_descending_witness :
  _get_cached_release_cycle release_cycle_json = Ok release_cycle ∧
  descending release_cycle ∧ strictly_descending release_cycle.
Proof.
  assert (_get_cached_release_cycle release_cycle_json = Ok release_cycle)
    as Hload by reflexivity.
  split; [exact Hload|].
  destruct (load_descending release_cycle_json release_cycle Hload)
    as [Hdesc Hstrict].
  split; [exact Hdesc|]. apply Hstrict.
  intros i j a b Hij Ha Hb.
  destruct i as [|[|[|[|i]]]], j as [|[|[|[|j]]]];
    simpl in Ha, Hb; simplify_eq; auto.
Defined.

(** C8, against the claim: two keys of the cache that spell one version load
    to two releases neither of which is above the other. *)
Lemma load_equal_versions :
  NoDup (twice_json.*1) ∧
  ∃ a b,
    _get_cached_release_cycle twice_json = Ok [a; b] ∧
    Version_lt (python_ver b) (python_ver a) = false ∧
    ¬ strictly_descending [a; b].
Proof.
  split.
  { repeat constructor; [|by intros ?%elem_of_nil].
    intros [=]%list_elem_of_singleton. }
  eexists _, _. split; [reflexivity|]. split; [reflexivity|].
  intros Hstrict. apply StronglySorted_cons in Hstrict as [Hab _].
  apply Forall_cons in Hab as [Hab _]. discriminate.
Qed.

Lemma check_python_support_fixed_witness :
  (check_python_support utc_today project_files "a.toml" release_cycle_json
     false true).2 =
    Raise (EOLPythonError "EOL Python support found: 3.8, 3.9") ∧
  check_python_support utc_today project_files "a.toml" release_cycle_json
    false false =
    (project_files, Raise (EOLPythonError "EOL Python support found: 3.8, 3.9")) ∧
  ∃ doc,
    files (check_python_support utc_today project_files "a.toml"
             release_cycle_json false true).1 !! "a.toml" = Some doc ∧
    default ∅ (doc !! "project") !! "requires-python" = Some ">=3.10".
Proof.
  destruct (check_python_support_fixed utc_today project_files "a.toml"
              (manifest ">=3.8") ">=3.8" spec_ge38 release_cycle_json
              release_cycle false ">=3.10")
    as (_ & Hfixed & Hplain & _ & _ & Hdoc & _);
    [reflexivity|reflexivity|discriminate|reflexivity|reflexivity|discriminate|
     reflexivity|].
  split; [exact Hfixed|]. split; [exact Hplain|exact Hdoc].
Defined.

(** C9, against the claim: for the same file the check raises the same
    exception with and without [fix], and [main] prints the same line and
    returns the same exit code: nothing that is returned, raised or printed
    tells the fixed file from the violation. *)
Lemma fixed_reported_as_violation :
  (check_python_support utc_today project_files "a.toml" release_cycle_json
     false true).2 =
  (check_python_support utc_today project_files "a.toml" release_cycle_json
     false false).2 ∧
  (main utc_today release_cycle_json project_files ["a.toml"] true true).1.2 =
  (main utc_today release_cycle_json project_files ["a.toml"] true false).1.2 ∧
  (main utc_today release_cycle_json project_files ["a.toml"] true true).2 =
  (main utc_today release_cycle_json project_files ["a.toml"] true false).2.
Proof. repeat split. Qed.

Lemma get_fixed_spec_in_bounds_witness :
  is_Some (last [py38; py39]) ∧
  get_fixed_spec spec_ge38 [py38; py39] ≠ Raise IndexError.
Proof.
  destruct (proj1 get_fixed_spec_in_bounds spec_ge38 [py38; py39])
    as (Hlast & Hne & _); [discriminate|].
  by split.
Defined.

(** C7: with [--fix], [b.toml] declares [==3.8], which the repair does not
    handle: [UnsupportedFixError] leaves [main], and [a.toml], which comes
    next and supports EOL versions, is neither reported nor fixed.  Without
    [--fix] both files are reported and the exit code is 1. *)
Theorem main_unsupported_fix_aborts :
  main utc_today release_cycle_json project_files ["b.toml"; "a.toml"] true true =
    (project_files, [], Raise UnsupportedFixError) ∧
  main utc_today release_cycle_json project_files ["b.toml"; "a.toml"] true false =
    (project_files,
     ["b.toml: EOL Python support found: 3.8";
      "a.toml: EOL Python support found: 3.8, 3.9"],
     Ok 1).
Proof. split; reflexivity. Qed.
End examples.


(** * Further properties of the code *)

(** ** Dates and the end of life *)

Lemma date_le_trans a b c : date_le a b → date_le b c → date_le a c.
Proof. unfold date_le. lia. Qed.

Section eol_facts.
Context `{Packaging}.

(** Without the system date only the phase counts. *)
Lemma is_eol_cache_only_status utc_today (r : PythonRelease) :
  is_eol utc_today r false = true ↔ status r = EOL.
Proof.
  unfold is_eol. destruct (decide (status r = EOL)) as [Hs|Hs].
  - by rewrite bool_decide_eq_true_2.
  - by rewrite bool_decide_eq_false_2.
Qed.

Lemma is_eol_cases utc_today (r : PythonRelease) use_system_date :
  is_eol utc_today r use_system_date = true ↔
  status r = EOL ∨
  (use_system_date = true ∧ date_le (end_of_life r) utc_today).
Proof.
  unfold is_eol. rewrite <-date_leb_le.
  destruct (decide (status r = EOL)) as [Hs|Hs].
  - rewrite bool_decide_eq_true_2 by done. split; [by left|done].
  - rewrite bool_decide_eq_false_2 by done.
    destruct use_system_date, (date_leb _ _); simpl;
      (split; [try done; by right|by intros [?|[? ?]]]).
Qed.

(** A release that is EOL by the cache alone is EOL at every date and with
    either value of the flag; a release that is EOL at some date is EOL, with
    the system date in use, at every later date. *)
Theorem is_eol_monotone utc_today utc_later (r : PythonRelease) use_system_date :
  (is_eol utc_today r false = true → is_eol utc_later r use_system_date = true) ∧
  (date_le utc_today utc_later →
   is_eol utc_today r use_system_date = true → is_eol utc_later r true = true).
Proof.
  split.
  - intros Hs%is_eol_cache_only_status. apply is_eol_cases. by left.
  - intros Hle [Hs|[_ Hdate]]%is_eol_cases; apply is_eol_cases; [by left|].
    right. split; [done|]. by eapply date_le_trans.
Qed.

Lemma eol_overlap_elem_of utc_today specs release_cycle use_system_date r :
  r ∈ eol_overlap utc_today specs release_cycle use_system_date ↔
  r ∈ release_cycle ∧ contains specs (python_ver r) = true ∧
  is_eol utc_today r use_system_date = true.
Proof.
  unfold eol_overlap. rewrite sorted_Permutation. apply eol_covered_elem_of.
Qed.

(** The overlap found with the cache alone is part of the overlap found with
    the system date, at whatever date; and with the system date in use the
    overlap only grows as the date advances. *)
Theorem eol_overlap_monotone utc_today utc_later specs release_cycle
    use_system_date (r : PythonRelease) :
  (r ∈ eol_overlap utc_today specs release_cycle false →
   r ∈ eol_overlap utc_later specs release_cycle use_system_date) ∧
  (date_le utc_today utc_later →
   r ∈ eol_overlap utc_today specs release_cycle use_system_date →
   r ∈ eol_overlap utc_later specs release_cycle true).
Proof.
  rewrite !eol_overlap_elem_of. split.
  - intros (Hr & Hc & Hs%is_eol_cache_only_status).
    split; [done|]. split; [done|]. apply is_eol_cases. by left.
  - intros Hle (Hr & Hc & Heol). split; [done|]. split; [done|].
    apply is_eol_cases. apply is_eol_cases in Heol as [Hs|[_ Hdate]]; [by left|].
    right. split; [done|]. by eapply date_le_trans.
Qed.

(** Called on an empty overlap, [get_fixed_spec] still checks the shape of
    the specifier first: it raises [UnsupportedFixError] unless the set is one
    [>=] clause, and [IndexError] when it is. *)
Theorem get_fixed_spec_empty specs :
  (get_fixed_spec specs [] = Raise IndexError ↔
   ∃ spec, specifiers specs = [spec] ∧ operator spec = ">=") ∧
  (get_fixed_spec specs [] = Raise UnsupportedFixError ↔
   ¬ ∃ spec, specifiers specs = [spec] ∧ operator spec = ">=").
Proof.
  unfold get_fixed_spec.
  destruct (specifiers specs) as [|spec [|spec' l]] eqn:Hspecs; simpl.
  all: try destruct (String.eqb_spec (operator spec) ">=") as [Hop|Hop]; simpl.
  all: split; split; intros Hx; try done.
  all: try (by destruct Hx as (spec0 & ? & ?); simplify_eq).
  all: try (by intros (spec0 & ? & ?); simplify_eq).
  - by exists spec.
  - destruct Hx. by exists spec.
Qed.
End eol_facts.

(** ** The parsing of dates and phases *)

Section parse_facts.
Context `{Datetime}.

(** A text with one dash parses exactly when [int] reads a year from 1 to
    9999 before the dash and a month from 1 to 12 after it; the date is then
    the first day of that month. *)
Theorem parse_eol_date_two_parts s a b d :
  split "-" s = [a; b] →
  (_parse_eol_date s = Ok d ↔
   py_int a = Some (year d) ∧ py_int b = Some (month d) ∧ day d = 1 ∧
   1 <= year d <= 9999 ∧ 1 <= month d <= 12).
Proof.
  intros Hsplit. unfold _parse_eol_date. rewrite Hsplit. split.
  - destruct (py_int a) as [y|]; [|done]. destruct (py_int b) as [m|]; [|done].
    simpl. unfold date_new.
    destruct (negb _); [done|]. destruct (valid_ymd y m 1) eqn:Hv; [|done].
    intros [= <-]. simpl.
    unfold valid_ymd, MINYEAR, MAXYEAR in Hv.
    repeat (apply andb_true_iff in Hv as [Hv ?]). repeat split; lia.
  - destruct d as [y m d]. simpl. intros (-> & -> & -> & Hy & Hm). simpl.
    unfold date_new, fits_c_int, valid_ymd, MINYEAR, MAXYEAR.
    assert (1 <= days_in_month y m).
    { unfold days_in_month. repeat case_match; lia. }
    repeat match goal with
           | |- context [?a <=? ?b] => rewrite (proj2 (Z.leb_le a b)) by lia
           end.
    reflexivity.
Qed.
End parse_facts.

(** [ReleasePhase(s)] returns the member whose value is [s]: it succeeds on
    the value of every member, on nothing else, and raises [ValueError] on
    any other text; no two members have the same value. *)
Theorem ReleasePhase_round_trip s :
  (∀ p, ReleasePhase_new s = Ok p ↔ ReleasePhase_value p = s) ∧
  (ReleasePhase_new s = Raise ValueError ↔ ∀ p, ReleasePhase_value p ≠ s).
Proof.
  split.
  - intros p. split; [apply ReleasePhase_new_Ok|].
    intros <-. apply ReleasePhase_new_value.
  - split; [|apply ReleasePhase_new_unknown].
    intros Hraise p <-. by rewrite ReleasePhase_new_value in Hraise.
Qed.

(** ** The loader *)

Lemma rmap_app_Raise {A B} (f : A → result B) good x rest e :
  Forall (λ a, ∃ b, f a = Ok b) good → f x = Raise e →
  rmap f (good ++ x :: rest) = Raise e.
Proof.
  intros Hgood Hx. induction Hgood as [|a good [b Hb] _ IH]; simpl.
  - by rewrite Hx.
  - by rewrite Hb, IH.
Qed.

Lemma rmap_Permutation {A B} (f : A → result B) l l' ys :
  l ≡ₚ l' → rmap f l = Ok ys → ∃ ys', rmap f l' = Ok ys' ∧ ys ≡ₚ ys'.
Proof.
  intros Hperm. revert ys.
  induction Hperm as [|x l l' _ IH|x y l|l l' l'' _ IH1 _ IH2]; intros ys; simpl.
  - intros [= <-]. by exists [].
  - destruct (f x) as [b|]; simpl; [|done].
    destruct (rmap f l) as [bs|]; simpl; [|done]. intros [= <-].
    destruct (IH bs eq_refl) as (bs' & -> & Hbs). simpl.
    exists (b :: bs'). by rewrite Hbs.
  - destruct (f y) as [b|]; simpl; [|done].
    destruct (f x) as [c|]; simpl; [|done].
    destruct (rmap f l) as [bs|]; simpl; [|done]. intros [= <-].
    exists (c :: b :: bs). split; [done|]. apply Permutation_swap.
  - intros Hys. destruct (IH1 ys Hys) as (ys' & Hys' & Hp1).
    destruct (IH2 ys' Hys') as (ys'' & Hys'' & Hp2).
    exists ys''. split; [done|]. by rewrite Hp1.
Qed.

Lemma rmap_Ok_elem_of {A B} (f : A → result B) l ys y :
  rmap f l = Ok ys → y ∈ ys → ∃ x, x ∈ l ∧ f x = Ok y.
Proof.
  intros Hmap%rmap_Ok Hy. induction Hmap as [|x y' l ys Hxy _ IH].
  - by apply elem_of_nil in Hy.
  - apply elem_of_cons in Hy as [->|Hy].
    + exists x. split; [by left|done].
    + destruct (IH Hy) as (x' & ? & ?). exists x'. split; [by right|done].
Qed.

Section loader_more.
Context `{Datetime} `{Packaging}.

(** [from_json] builds the version, then the phase, then the date, and the
    first that fails decides the exception: a key that is not a version
    raises [InvalidVersion] whatever the entry holds; with a good key, a
    missing status raises [KeyError] and an unknown one [ValueError]; with a
    good key and status, a missing date raises [KeyError]. *)
Theorem from_json_error_order ver metadata :
  (Version_new ver = None → from_json ver metadata = Raise InvalidVersion) ∧
  (is_Some (Version_new ver) →
   (metadata !! "status" = None → from_json ver metadata = Raise KeyError) ∧
   (∀ s, metadata !! "status" = Some s → (∀ p, ReleasePhase_value p ≠ s) →
         from_json ver metadata = Raise ValueError) ∧
   (∀ p, metadata !! "status" = Some (ReleasePhase_value p) →
         metadata !! "end_of_life" = None →
         from_json ver metadata = Raise KeyError)).
Proof.
  unfold from_json, getitem. split; [by intros ->|].
  intros [v ->]. simpl. split; [by intros ->|]. split.
  - intros s -> Hs. simpl. by rewrite ReleasePhase_new_unknown.
  - intros p -> ->. simpl. by rewrite ReleasePhase_new_value.
Qed.

(** The load raises the exception of the first entry of the file that does
    not make a release; the entries after it are not looked at. *)
Theorem load_first_error (good : cache) ver metadata (rest : cache) e :
  Forall (λ vm, ∃ r, from_json vm.1 vm.2 = Ok r) good →
  from_json ver metadata = Raise e →
  _get_cached_release_cycle (good ++ (ver, metadata) :: rest) = Raise e.
Proof.
  intros Hgood Hbad. unfold _get_cached_release_cycle.
  by rewrite (rmap_app_Raise _ good (ver, metadata) rest e Hgood Hbad).
Qed.

(** Every release of a loaded cycle is built from an entry of the cache, and
    its end-of-life date is a date of the calendar. *)
Theorem load_releases_valid (contents : cache) releases r :
  _get_cached_release_cycle contents = Ok releases → r ∈ releases →
  valid_date (end_of_life r) = true ∧
  ∃ ver metadata, (ver, metadata) ∈ contents ∧ from_json ver metadata = Ok r.
Proof.
  unfold _get_cached_release_cycle.
  destruct (rmap _ contents) as [built|] eqn:Hmap; [|done].
  cbn [rbind]. intros [= <-] Hr.
  change (r ∈ sorted python_ver Version_lt built true) in Hr.
  rewrite sorted_Permutation in Hr.
  destruct (rmap_Ok_elem_of _ _ _ _ Hmap Hr) as ([ver metadata] & Hin & Hjson).
  simpl in Hjson. split; [|by exists ver, metadata].
  apply from_json_Ok in Hjson as (_ & e & _ & _ & _ & _ & Hdate).
  by eapply parse_eol_date_valid.
Qed.

(** The order of the entries of the cache has no part in the result when no
    two releases have equal versions: the same entries in another order load
    to the same list. *)
Theorem load_order_irrelevant (contents contents' : cache) releases :
  contents ≡ₚ contents' →
  _get_cached_release_cycle contents = Ok releases →
  distinct_versions releases →
  _get_cached_release_cycle contents' = Ok releases.
Proof.
  intros Hperm Hload Hdist. unfold _get_cached_release_cycle in *.
  destruct (rmap _ contents) as [built|] eqn:Hmap; [|done].
  cbn [rbind] in Hload. injection Hload as <-.
  destruct (rmap_Permutation _ _ _ _ Hperm Hmap) as (built' & -> & Hbuilt).
  cbn [rbind]. f_equal. symmetry.
  apply (StronglySorted_unique_strong
           (λ a b : PythonRelease, Version_lt (python_ver a) (python_ver b) = false)).
  - intros a b [i Ha]%list_elem_of_lookup Hb Hab Hba.
    rewrite sorted_Permutation, <-Hbuilt in Hb.
    rewrite <-(sorted_Permutation python_ver Version_lt built true) in Hb.
    apply list_elem_of_lookup in Hb as [j Hb]. unfold sorted in Hb.
    destruct (decide (i = j)) as [->|Hij]; [congruence|].
    destruct (Hdist i j a b Hij Ha Hb); congruence.
  - apply sorted_descending; [apply Version_lt_asym|].
    intros a b c. apply Version_lt_negtrans.
  - apply sorted_descending; [apply Version_lt_asym|].
    intros a b c. apply Version_lt_negtrans.
  - transitivity built; [apply (sorted_Permutation _ _ built true)|].
    rewrite Hbuilt. symmetry. apply (sorted_Permutation _ _ built' true).
Qed.
End loader_more.

(** ** The check of one file, and the files it touches *)

Section check_more.
Context `{Datetime} `{Packaging}.

(** The check fails early, before the cache is read: on a file that does not
    exist, on a manifest without a [requires-python] (or with an empty one)
    and on a specifier that [packaging] rejects, the exception is the same
    whatever the cache holds, malformed or not, and nothing is written. *)
Theorem check_python_support_error_order utc_today w toml_file cache_json
    use_system_date fix_ :
  (files w !! toml_file = None →
   check_python_support utc_today w toml_file cache_json use_system_date fix_ =
     (w, Raise FileNotFoundError)) ∧
  (∀ contents, files w !! toml_file = Some contents →
     (default ∅ (contents !! "project") !! "requires-python" = None ∨
      default ∅ (contents !! "project") !! "requires-python" = Some EmptyString →
      check_python_support utc_today w toml_file cache_json use_system_date fix_ =
        (w, Raise RequiresPythonNotFoundError)) ∧
     (∀ requires_python,
        default ∅ (contents !! "project") !! "requires-python" = Some requires_python →
        requires_python ≠ EmptyString →
        SpecifierSet_new requires_python = None →
        check_python_support utc_today w toml_file cache_json use_system_date fix_ =
          (w, Raise InvalidSpecifier))).
Proof.
  unfold check_python_support. split; [by intros ->|].
  intros contents ->. split.
  - by intros [-> | ->].
  - intros requires_python -> Hne ->. by destruct requires_python.
Qed.

Lemma check_python_support_cases utc_today w toml_file cache_json
    use_system_date fix_ :
  let r := check_python_support utc_today w toml_file cache_json
             use_system_date fix_ in
  r.1 = w ∨
  (fix_ = true ∧
   ∃ contents new_spec msg,
     files w !! toml_file = Some contents ∧
     r = (write_file w toml_file
            (<["project" :=
                 <["requires-python" := new_spec]>
                   (default ∅ (contents !! "project"))]> contents),
          Raise (EOLPythonError msg))).
Proof.
  unfold check_python_support.
  destruct (files w !! toml_file) as [contents|]; [|by left].
  destruct (default ∅ (contents !! "project") !! "requires-python")
    as [[|c s]|]; [by left| |by left].
  destruct (SpecifierSet_new _) as [package_spec|]; [|by left].
  destruct (_get_cached_release_cycle cache_json) as [release_cycle|];
    [|by left].
  destruct (eol_covered _ _ _ _) as [|r l]; [by left|].
  destruct fix_; [|by left].
  destruct (get_fixed_spec _ _) as [new_spec|]; [|by left].
  right. split; [done|]. by eexists contents, new_spec, _.
Qed.

(** The check changes the files in one case only: the fix was asked for and
    made.  Without the fix, on a clean file and on every exception other
    than [EOLPythonError] the world is left as it was; and when it is not,
    the fix was asked for, [EOLPythonError] is raised, and the one write made
    is of the checked file. *)
Theorem check_python_support_writes utc_today w toml_file cache_json
    use_system_date fix_ :
  let r := check_python_support utc_today w toml_file cache_json
             use_system_date fix_ in
  (fix_ = false → r.1 = w) ∧
  (r.2 = Ok tt → r.1 = w) ∧
  (∀ e, r.2 = Raise e → (∀ msg, e ≠ EOLPythonError msg) → r.1 = w) ∧
  (r.1 ≠ w →
   fix_ = true ∧ (∃ msg, r.2 = Raise (EOLPythonError msg)) ∧
   ∃ doc, writes r.1 = writes w ++ [(toml_file, doc)] ∧
          files r.1 = <[toml_file := doc]> (files w)).
Proof.
  intros r. subst r.
  destruct (check_python_support_cases utc_today w toml_file cache_json
              use_system_date fix_)
    as [Hsame|(-> & contents & new_spec & msg & Hfile & Hr)].
  - simpl in Hsame. repeat split; done.
  - rewrite Hr. simpl. split; [done|]. split; [done|]. split.
    + intros e [= <-] He. by destruct (He msg).
    + intros _. split; [done|]. split; [by exists msg|]. by eexists.
Qed.

(** What the fix writes.  When the check with [fix] changes the files, the
    manifest declared a specifier that [packaging] reads, the cache loaded,
    and the repair of that specifier on its overlap returned the new one;
    [EOLPythonError] is raised with the versions of the overlap; the checked
    file is the one file written, and it reads back with the new specifier
    under [project] / [requires-python], the other keys of the [project]
    table, the other tables of the file and the other files being as
    before. *)
Theorem check_python_support_fix_frame utc_today w toml_file cache_json
    use_system_date w' r :
  check_python_support utc_today w toml_file cache_json use_system_date true =
    (w', r) →
  w' ≠ w →
  ∃ contents requires_python package_spec release_cycle new_spec doc,
    files w !! toml_file = Some contents ∧
    default ∅ (contents !! "project") !! "requires-python" = Some requires_python ∧
    SpecifierSet_new requires_python = Some package_spec ∧
    _get_cached_release_cycle cache_json = Ok release_cycle ∧
    get_fixed_spec package_spec
      (eol_overlap utc_today package_spec release_cycle use_system_date) =
      Ok new_spec ∧
    r = Raise (EOLPythonError (eol_message
          (eol_overlap utc_today package_spec release_cycle use_system_date))) ∧
    files w' = <[toml_file := doc]> (files w) ∧
    writes w' = writes w ++ [(toml_file, doc)] ∧
    files w' !! toml_file = Some doc ∧
    default ∅ (doc !! "project") !! "requires-python" = Some new_spec ∧
    (∀ other, other ≠ toml_file → files w' !! other = files w !! other) ∧
    (∀ table, table ≠ "project" → doc !! table = contents !! table) ∧
    (∀ key, key ≠ "requires-python" →
       default ∅ (doc !! "project") !! key =
       default ∅ (contents !! "project") !! key).
Proof.
  unfold check_python_support. intros Hcheck Hne.
  destruct (files w !! toml_file) as [contents|] eqn:Hfile; [|by simplify_eq].
  destruct (default ∅ (contents !! "project") !! "requires-python")
    as [[|c s]|] eqn:Hreq; [by simplify_eq| |by simplify_eq].
  destruct (SpecifierSet_new _) as [package_spec|] eqn:Hspec; [|by simplify_eq].
  destruct (_get_cached_release_cycle cache_json) as [release_cycle|] eqn:Hload;
    [|by simplify_eq].
  change (sorted python_ver Version_lt
            (eol_covered utc_today package_spec release_cycle use_system_date)
            false)
    with (eol_overlap utc_today package_spec release_cycle use_system_date)
    in Hcheck.
  destruct (eol_covered _ _ _ _) as [|r0 l] eqn:Hcov; [by simplify_eq|].
  assert (sorted python_ver Version_lt (r0 :: l) false =
          eol_overlap utc_today package_spec release_cycle use_system_date)
    as Hoverlap by (unfold eol_overlap; by rewrite Hcov).
  rewrite Hoverlap in Hcheck.
  destruct (get_fixed_spec _ _) as [new_spec|] eqn:Hfix; [|by simplify_eq].
  injection Hcheck as <- <-.
  eexists contents, _, package_spec, release_cycle, new_spec, _.
  unfold write_file, toml in *. simpl.
  repeat (split; [done|]).
  split; [by rewrite lookup_insert_eq|].
  split; [by rewrite lookup_insert_eq; simpl; rewrite lookup_insert_eq|].
  split; [by intros other Hother; rewrite lookup_insert_ne|].
  split; [by intros table Htable; rewrite lookup_insert_ne|].
  intros key Hkey. rewrite lookup_insert_eq. simpl. by rewrite lookup_insert_ne.
Qed.

Lemma is_eol_cache_only utc_today utc_today' (r : PythonRelease) :
  is_eol utc_today r false = is_eol utc_today' r false.
Proof. unfold is_eol. by destruct (bool_decide _). Qed.

Lemma check_python_support_cache_only utc_today utc_today' w toml_file
    cache_json fix_ :
  check_python_support utc_today w toml_file cache_json false fix_ =
  check_python_support utc_today' w toml_file cache_json false fix_.
Proof.
  unfold check_python_support.
  destruct (files w !! toml_file) as [contents|]; [|done].
  destruct (default ∅ (contents !! "project") !! "requires-python")
    as [[|c s]|]; [done| |done].
  destruct (SpecifierSet_new _) as [package_spec|]; [|done].
  destruct (_get_cached_release_cycle cache_json) as [release_cycle|]; [|done].
  unfold eol_covered.
  by rewrite (filter_ext _
    (λ r, contains package_spec (python_ver r) && is_eol utc_today' r false)
    (λ r, f_equal _ (is_eol_cache_only utc_today utc_today' r))).
Qed.

(** ** The run over the files *)

(** With [--cache_only] the date has no part in the run: at any two dates
    [main] prints the same lines, writes the same files and ends the same
    way. *)
Theorem main_cache_only_reproducible utc_today utc_today' cache_json w
    filenames fix_ :
  main utc_today cache_json w filenames true fix_ =
  main utc_today' cache_json w filenames true fix_.
Proof.
  unfold main. generalize 0 (@nil string). revert w.
  induction filenames as [|file rest IH]; intros w ec out; simpl; [done|].
  rewrite (check_python_support_cache_only utc_today utc_today').
  destruct (check_python_support utc_today' w file cache_json false fix_)
    as [w' [[]|e]]; [apply IH|].
  destruct e; try done; apply IH.
Qed.

(** Running [main] on two lists of files, one after the other: when the run
    on the first list returns, the run on both goes on with the second list
    from the world, the exit code and the lines the first one left; when it
    raises, the second list is not looked at. *)
Theorem main_loop_app utc_today cache_json cache_only fix_ files1 files2 w ec out :
  main_loop utc_today cache_json cache_only fix_ (files1 ++ files2) w ec out =
  match main_loop utc_today cache_json cache_only fix_ files1 w ec out with
  | (w1, out1, Ok ec1) =>
      main_loop utc_today cache_json cache_only fix_ files2 w1 ec1 out1
  | (w1, out1, Raise e) => (w1, out1, Raise e)
  end.
Proof.
  revert w ec out. induction files1 as [|file rest IH]; intros w ec out; simpl;
    [done|].
  destruct (check_python_support _ w file _ _ _) as [w' [[]|e]]; [apply IH|].
  destruct e; try done; apply IH.
Qed.

Lemma main_loop_Ok utc_today cache_json cache_only fix_ filenames w ec out
    w' out' ec' :
  main_loop utc_today cache_json cache_only fix_ filenames w ec out =
    (w', out', Ok ec') →
  (ec' = ec ∧ out' = out ∧ w' = w ∧
   ∀ file, file ∈ filenames →
     check_python_support utc_today w file cache_json (negb cache_only) fix_ =
       (w, Ok tt)) ∨
  (ec' = 1 ∧ ∃ lines, lines ≠ [] ∧ out' = out ++ lines).
Proof.
  revert w ec out. induction filenames as [|file rest IH]; intros w ec out; simpl.
  { intros [= -> -> ->]. left. repeat split. by intros file ?%elem_of_nil. }
  pose proof (check_python_support_cases utc_today w file cache_json
                (negb cache_only) fix_) as Hw. simpl in Hw.
  destruct (check_python_support _ w file _ _ _) as [w1 [[]|e]] eqn:Hcheck.
  - destruct Hw as [Hw|(_ & ? & ? & ? & _ & [=])]. simpl in Hw. subst w1.
    intros [(-> & -> & -> & Hall)|Hrep]%IH; [|by right].
    left. repeat split. intros f [->|Hf]%elem_of_cons; auto.
  - assert (∀ line,
        main_loop utc_today cache_json cache_only fix_ rest w1 1 (out ++ [line]) =
          (w', out', Ok ec') →
        ec' = 1 ∧ ∃ lines, lines ≠ [] ∧ out' = out ++ lines) as Hreported.
    { intros line [(-> & -> & _)|(-> & lines & _ & ->)]%IH.
      - split; [done|]. by exists [line].
      - split; [done|]. exists (line :: lines). split; [done|].
        by rewrite <-app_assoc. }
    destruct e; try done; intros Hrest; right; by eapply Hreported.
Qed.

(** When [main] returns, its exit code is 0 or 1.  It is 0 exactly when
    nothing was printed, and then every file was clean and no file was
    written; it is 1 exactly when a line was printed. *)
Theorem main_exit_code utc_today cache_json w filenames cache_only fix_ w' out ec :
  main utc_today cache_json w filenames cache_only fix_ = (w', out, Ok ec) →
  (ec = 0 ∧ out = [] ∧ w' = w ∧
   ∀ file, file ∈ filenames →
     check_python_support utc_today w file cache_json (negb cache_only) fix_ =
       clean w) ∨
  (ec = 1 ∧ out ≠ []).
Proof.
  unfold main, clean.
  intros [(-> & -> & -> & Hall)|(-> & lines & Hne & ->)]%main_loop_Ok.
  - by left.
  - by right.
Qed.

Lemma main_loop_clean utc_today cache_json cache_only fix_ filenames w ec out :
  (∀ file, file ∈ filenames →
     (check_python_support utc_today w file cache_json (negb cache_only) fix_).2 =
       Ok tt) →
  main_loop utc_today cache_json cache_only fix_ filenames w ec out =
    (w, out, Ok ec).
Proof.
  induction filenames as [|file rest IH]; intros Hall; simpl; [done|].
  pose proof (check_python_support_cases utc_today w file cache_json
                (negb cache_only) fix_) as Hw. simpl in Hw.
  pose proof (Hall file ltac:(by left)) as Hfile.
  destruct (check_python_support _ w file _ _ _) as [w1 r]. simpl in Hfile.
  subst r. destruct Hw as [Hw|(_ & ? & ? & ? & _ & [=])]. simpl in Hw. subst w1.
  apply IH. intros f Hf. apply Hall. by right.
Qed.

(** [main] returns 0 with nothing printed or written exactly when the check
    of every file returns without an exception. *)
Theorem main_all_clean utc_today cache_json w filenames cache_only fix_ :
  main utc_today cache_json w filenames cache_only fix_ = (w, [], Ok 0) ↔
  ∀ file, file ∈ filenames →
    (check_python_support utc_today w file cache_json (negb cache_only) fix_).2 =
      Ok tt.
Proof.
  split.
  - intros [(_ & _ & _ & Hall)|(? & _)]%main_loop_Ok; [|done].
    intros file Hfile. by rewrite (Hall file Hfile).
  - apply main_loop_clean.
Qed.

Lemma main_loop_no_fix utc_today cache_json cache_only filenames w ec out :
  (∀ file, file ∈ filenames →
     let r := (check_python_support utc_today w file cache_json
                 (negb cache_only) false).2 in
     r = Ok tt ∨ is_Some (report_line file r)) →
  let lines :=
    omap (λ file, report_line file
            (check_python_support utc_today w file cache_json
               (negb cache_only) false).2) filenames in
  main_loop utc_today cache_json cache_only false filenames w ec out =
    (w, out ++ lines, Ok (match lines with [] => ec | _ => 1 end)).
Proof.
  revert ec out. induction filenames as [|file rest IH]; intros ec out Hall; simpl.
  { by rewrite app_nil_r. }
  pose proof (check_python_support_cases utc_today w file cache_json
                (negb cache_only) false) as Hw. simpl in Hw.
  pose proof (Hall file ltac:(by left)) as Hfile. simpl in Hfile.
  assert (∀ f, f ∈ rest →
     let r := (check_python_support utc_today w f cache_json
                 (negb cache_only) false).2 in
     r = Ok tt ∨ is_Some (report_line f r)) as Hrest.
  { intros f Hf. apply Hall. by right. }
  destruct (check_python_support _ w file _ _ _) as [w1 r].
  destruct Hw as [Hw|([=] & _)]. simpl in Hw, Hfile. subst w1.
  destruct r as [[]|e]; simpl.
  - by apply IH.
  - destruct Hfile as [Hfile|[line Hline]]; [done|].
    destruct e; simpl in Hline; try done.
    + rewrite (IH 1 (out ++ [file +:+ ": " +:+ msg]) Hrest). simpl.
      rewrite <-app_assoc. simpl. f_equal. f_equal. by destruct (omap _ _).
    + rewrite (IH 1 (out ++ [not_found_message file]) Hrest). simpl.
      rewrite <-app_assoc. simpl. f_equal. f_equal. by destruct (omap _ _).
Qed.

(** Without [--fix], when the check of every file returns or raises one of
    the two exceptions [main] handles, [main] leaves the files as they were,
    prints one line for each file that is not clean, in the order of the
    files, and returns 1 if it printed a line and 0 if not. *)
Theorem main_without_fix utc_today cache_json w filenames cache_only :
  (∀ file, file ∈ filenames →
     let r := (check_python_support utc_today w file cache_json
                 (negb cache_only) false).2 in
     r = Ok tt ∨ is_Some (report_line file r)) →
  let lines :=
    omap (λ file, report_line file
            (check_python_support utc_today w file cache_json
               (negb cache_only) false).2) filenames in
  main utc_today cache_json w filenames cache_only false =
    (w, lines, Ok (match lines with [] => 0 | _ => 1 end)).
Proof. intros Hall. by apply main_loop_no_fix. Qed.

(** Without [--fix] [main] never writes a file, however it ends. *)
Theorem main_no_fix_no_write utc_today cache_json w filenames cache_only :
  (main utc_today cache_json w filenames cache_only false).1.1 = w.
Proof.
  unfold main. generalize 0 (@nil string).
  induction filenames as [|file rest IH]; intros ec out; simpl; [done|].
  pose proof (check_python_support_cases utc_today w file cache_json
                (negb cache_only) false) as Hw. simpl in Hw.
  destruct (check_python_support _ w file _ _ _) as [w1 r].
  destruct Hw as [Hw|([=] & _)]. simpl in Hw. subst w1.
  destruct r as [[]|e]; [apply IH|]. destruct e; try done; apply IH.
Qed.

(** A cache that does not load stops [main] at the first file that declares
    a specifier: the loader's exception leaves [main], nothing is printed or
    written, and the files after it are not looked at. *)
Theorem main_malformed_cache utc_today cache_json w file rest contents
    requires_python package_spec cache_only fix_ e :
  _get_cached_release_cycle cache_json = Raise e →
  files w !! file = Some contents →
  default ∅ (contents !! "project") !! "requires-python" = Some requires_python →
  requires_python ≠ EmptyString →
  SpecifierSet_new requires_python = Some package_spec →
  main utc_today cache_json w (file :: rest) cache_only fix_ = (w, [], Raise e).
Proof.
  intros Hload Hfile Hreq Hne Hspec. unfold main. simpl.
  unfold check_python_support. rewrite Hfile, Hreq.
  destruct requires_python as [|c s]; [done|]. rewrite Hspec, Hload.
  apply load_raises in Hload as [->|[->|[->| ->]]]; done.
Qed.
End check_more.


(** ** The order of releases of equal versions *)

Section stable_facts.
Context {A K : Type} (key : A → K) (lt : K → K → bool).
Hypothesis lt_negtrans :
  ∀ a b c, lt a b = false → lt b c = false → lt a c = false.

Let same (v : K) (x : A) : bool := negb (lt v (key x)) && negb (lt (key x) v).

Lemma insert_by_filter_same v x l :
  List.filter (same v) (insert_by key lt x l) =
  List.filter (same v) (x :: l).
Proof using lt_negtrans.
  induction l as [|y l IH]; [done|]. cbn [insert_by].
  destruct (lt (key y) (key x)) eqn:Hyx; [|done].
  cbn [List.filter] in *. rewrite IH.
  destruct (same v x) eqn:Hx; [|done].
  destruct (same v y) eqn:Hy; [|done].
  subst same. simpl in *.
  apply andb_true_iff in Hx as [Hvx _]. apply andb_true_iff in Hy as [_ Hyv].
  apply negb_true_iff in Hvx, Hyv.
  by rewrite (lt_negtrans _ _ _ Hyv Hvx) in Hyx.
Qed.

Lemma sort_by_filter_same v l :
  List.filter (same v) (sort_by key lt l) = List.filter (same v) l.
Proof using lt_negtrans.
  induction l as [|x l IH]; [done|]. cbn [sort_by foldr].
  rewrite insert_by_filter_same. cbn [List.filter]. fold (sort_by key lt l).
  by rewrite IH.
Qed.

Lemma filter_reverse (P : A → bool) l :
  List.filter P (reverse l) = reverse (List.filter P l).
Proof.
  induction l as [|x l IH]; [done|].
  rewrite reverse_cons, List.filter_app, IH. cbn [List.filter].
  destruct (P x); [by rewrite reverse_cons|by rewrite app_nil_r].
Qed.

(** The sort is stable, in either direction: the elements whose key equals
    a given key keep the order they had. *)
Lemma sorted_filter_same v l rev :
  List.filter (same v) (sorted key lt l rev) = List.filter (same v) l.
Proof using lt_negtrans.
  destruct rev; [|apply sort_by_filter_same]. unfold sorted.
  rewrite filter_reverse, sort_by_filter_same, filter_reverse.
  apply reverse_involutive.
Qed.
End stable_facts.

Section stable_load.
Context `{Datetime} `{Packaging}.

(** Releases of equal versions are kept, in the order of the cache file:
    for every version, the loaded releases of that version are the releases
    built from the entries, in the order of the entries. *)
Theorem load_stable (contents : cache) releases :
  _get_cached_release_cycle contents = Ok releases →
  ∃ built,
    Forall2 (λ vm r, from_json vm.1 vm.2 = Ok r) contents built ∧
    ∀ v, List.filter (same_version v) releases =
         List.filter (same_version v) built.
Proof.
  unfold _get_cached_release_cycle.
  destruct (rmap _ contents) as [built|] eqn:Hmap; [|done].
  cbn [rbind]. intros [= <-]. exists built. split; [by apply rmap_Ok|].
  intros v.
  apply (sorted_filter_same python_ver Version_lt Version_lt_negtrans v built true).
Qed.
End stable_load.


(** ** The further properties on the sample data *)

Section more_examples.
Import Ref Sample.

Lemma is_eol_monotone_witness :
  is_eol (mk_date 2030 1 1) py38 true = true ∧
  is_eol (mk_date 2027 1 1) py310 true = true.
Proof.
  split.
  - exact (proj1 (is_eol_monotone utc_today (mk_date 2030 1 1) py38 true) eq_refl).
  - apply (proj2 (is_eol_monotone utc_today (mk_date 2027 1 1) py310 true));
      [|reflexivity].
    unfold date_le. simpl. lia.
Defined.

Lemma eol_overlap_monotone_witness :
  py38 ∈ eol_overlap (mk_date 2030 1 1) spec_ge38 release_cycle true.
Proof.
  apply (proj1 (eol_overlap_monotone utc_today (mk_date 2030 1 1) spec_ge38
                  release_cycle true py38)).
  assert (eol_overlap utc_today spec_ge38 release_cycle false = [py38; py39])
    as -> by reflexivity.
  by left.
Defined.

Lemma get_fixed_spec_empty_witness :
  get_fixed_spec spec_ge38 [] = Raise IndexError ∧
  get_fixed_spec spec_eq38 [] = Raise UnsupportedFixError.
Proof.
  split.
  - apply (proj1 (get_fixed_spec_empty spec_ge38)). by exists (">=", [3; 8]).
  - apply (proj2 (get_fixed_spec_empty spec_eq38)).
    intros (spec & Hspecs & Hop). injection Hspecs as <-. discriminate.
Defined.

Lemma parse_eol_date_two_parts_witness :
  _parse_eol_date "2023-6" = Ok (mk_date 2023 6 1) ∧
  _parse_eol_date "2023-13" ≠ Ok (mk_date 2023 13 1).
Proof.
  split.
  - apply (proj2 (parse_eol_date_two_parts "2023-6" "2023" "6"
                    (mk_date 2023 6 1) eq_refl)).
    simpl. repeat split; lia.
  - intros Hok.
    apply (proj1 (parse_eol_date_two_parts "2023-13" "2023" "13"
                    (mk_date 2023 13 1) eq_refl)) in Hok.
    simpl in Hok. lia.
Defined.

Lemma from_json_error_order_witness :
  from_json "not-a-version" (metadata "retired" "never") = Raise InvalidVersion ∧
  from_json "3.8" ∅ = Raise KeyError ∧
  from_json "3.8" (metadata "retired" "2024-10-07") = Raise ValueError.
Proof.
  split; [|split].
  - exact (proj1 (from_json_error_order "not-a-version"
                    (metadata "retired" "never")) eq_refl).
  - apply (proj2 (from_json_error_order "3.8" ∅)); [by eexists|reflexivity].
  - destruct (proj2 (from_json_error_order "3.8" (metadata "retired" "2024-10-07")))
      as (_ & Hunknown & _); [by eexists|].
    apply (Hunknown "retired"); [reflexivity|]. by intros [].
Defined.

Lemma load_first_error_witness :
  _get_cached_release_cycle unknown_status_json = Raise ValueError.
Proof.
  apply (load_first_error [("3.9", metadata "end-of-life" "2025-10")]
           "3.8" (metadata "retired" "2024-10-07") [] ValueError);
    [|reflexivity].
  constructor; [|constructor]. by exists py39.
Defined.

Lemma load_releases_valid_witness :
  valid_date (end_of_life py39) = true ∧
  ∃ ver metadata,
    (ver, metadata) ∈ release_cycle_json ∧ from_json ver metadata = Ok py39.
Proof.
  apply (load_releases_valid release_cycle_json release_cycle py39);
    [reflexivity|].
  right. right. by left.
Defined.

Lemma load_order_irrelevant_witness :
  _get_cached_release_cycle
    [ ("3.14", metadata "bugfix" "2030-10");
      ("3.9", metadata "end-of-life" "2025-10");
      ("3.8", metadata "end-of-life" "2024-10-07");
      ("3.10", metadata "security" "2026-10") ] = Ok release_cycle.
Proof.
  apply (load_order_irrelevant release_cycle_json);
    [apply Permutation_swap|reflexivity|].
  intros i j a b Hij Ha Hb.
  destruct i as [|[|[|[|i]]]], j as [|[|[|[|j]]]];
    simpl in Ha, Hb; simplify_eq; auto.
Defined.

Lemma load_stable_witness :
  ∃ built,
    Forall2 (λ vm r, from_json vm.1 vm.2 = Ok r) twice_json built ∧
    ∀ v, List.filter (same_version v)
           [mk_release [3; 8] EOL (mk_date 2024 10 7);
            mk_release [3; 8; 0] EOL (mk_date 2024 10 7)] =
         List.filter (same_version v) built.
Proof. apply (load_stable twice_json). reflexivity. Defined.

Lemma check_python_support_error_order_witness :
  check_python_support utc_today other_files "missing.toml" bad_key_json true true =
    (other_files, Raise FileNotFoundError) ∧
  check_python_support utc_today other_files "d.toml" bad_key_json true true =
    (other_files, Raise RequiresPythonNotFoundError) ∧
  check_python_support utc_today other_files "e.toml" bad_key_json true true =
    (other_files, Raise InvalidSpecifier).
Proof.
  split; [|split].
  - exact (proj1 (check_python_support_error_order utc_today other_files
                    "missing.toml" bad_key_json true true) eq_refl).
  - destruct (proj2 (check_python_support_error_order utc_today other_files
                       "d.toml" bad_key_json true true) ∅ eq_refl)
      as [Hnone _].
    apply Hnone. by left.
  - destruct (proj2 (check_python_support_error_order utc_today other_files
                       "e.toml" bad_key_json true true) (manifest "three") eq_refl)
      as [_ Hinvalid].
    apply (Hinvalid "three"); [reflexivity|discriminate|reflexivity].
Defined.

Lemma check_python_support_writes_witness :
  (check_python_support utc_today project_files "a.toml" release_cycle_json
     false false).1 = project_files ∧
  (check_python_support utc_today project_files "b.toml" release_cycle_json
     false true).1 = project_files.
Proof.
  split.
  - exact (proj1 (check_python_support_writes utc_today project_files "a.toml"
                    release_cycle_json false false) eq_refl).
  - apply (proj1 (proj2 (proj2 (check_python_support_writes utc_today
             project_files "b.toml" release_cycle_json false true)))
             UnsupportedFixError); [reflexivity|discriminate].
Defined.

Lemma check_python_support_fix_frame_witness :
  ∃ contents requires_python package_spec release_cycle new_spec doc,
    files project_files !! "a.toml" = Some contents ∧
    default ∅ (contents !! "project") !! "requires-python" = Some requires_python ∧
    SpecifierSet_new requires_python = Some package_spec ∧
    _get_cached_release_cycle release_cycle_json = Ok release_cycle ∧
    get_fixed_spec package_spec
      (eol_overlap utc_today package_spec release_cycle false) = Ok new_spec ∧
    @Raise unit (EOLPythonError "EOL Python support found: 3.8, 3.9") =
      Raise (EOLPythonError (eol_message
        (eol_overlap utc_today package_spec release_cycle false))) ∧
    files (write_file project_files "a.toml" (manifest ">=3.10")) =
      <["a.toml" := doc]> (files project_files) ∧
    writes (write_file project_files "a.toml" (manifest ">=3.10")) =
      writes project_files ++ [("a.toml", doc)] ∧
    files (write_file project_files "a.toml" (manifest ">=3.10")) !! "a.toml" =
      Some doc ∧
    default ∅ (doc !! "project") !! "requires-python" = Some new_spec ∧
    (∀ other, other ≠ "a.toml" →
       files (write_file project_files "a.toml" (manifest ">=3.10")) !! other =
       files project_files !! other) ∧
    (∀ table, table ≠ "project" → doc !! table = contents !! table) ∧
    (∀ key, key ≠ "requires-python" →
       default ∅ (doc !! "project") !! key =
       default ∅ (contents !! "project") !! key).
Proof.
  apply (check_python_support_fix_frame utc_today project_files "a.toml"
           release_cycle_json false
           (write_file project_files "a.toml" (manifest ">=3.10"))
           (Raise (EOLPythonError "EOL Python support found: 3.8, 3.9"))).
  - reflexivity.
  - intros Heq. apply (f_equal (λ x, length (writes x))) in Heq. discriminate.
Defined.

Lemma main_exit_code_witness :
  main utc_today release_cycle_json project_files ["b.toml"; "a.toml"] true false =
    (project_files,
     ["b.toml: EOL Python support found: 3.8";
      "a.toml: EOL Python support found: 3.8, 3.9"], Ok 1) ∧
  main utc_today release_cycle_json other_files ["c.toml"] true true =
    (other_files, [], Ok 0).
Proof.
  assert (main utc_today release_cycle_json project_files ["b.toml"; "a.toml"]
            true false =
          (project_files,
           ["b.toml: EOL Python support found: 3.8";
            "a.toml: EOL Python support found: 3.8, 3.9"], Ok 1)) as Hrun
    by reflexivity.
  assert (main utc_today release_cycle_json other_files ["c.toml"] true true =
          (other_files, [], Ok 0)) as Hclean by reflexivity.
  split; [|exact Hclean].
  destruct (main_exit_code _ _ _ _ _ _ _ _ _ Hrun) as [(Hec & _)|(_ & _)];
    [discriminate|exact Hrun].
Defined.

Lemma main_all_clean_witness :
  main utc_today release_cycle_json other_files ["c.toml"] true true =
    (other_files, [], Ok 0).
Proof.
  apply (proj2 (main_all_clean utc_today release_cycle_json other_files
                  ["c.toml"] true true)).
  intros file ->%list_elem_of_singleton. reflexivity.
Defined.

Lemma main_without_fix_witness :
  main utc_today release_cycle_json project_files ["b.toml"; "a.toml"] true false =
    (project_files,
     ["b.toml: EOL Python support found: 3.8";
      "a.toml: EOL Python support found: 3.8, 3.9"], Ok 1).
Proof.
  assert (∀ file, file ∈ ["b.toml"; "a.toml"] →
            let r := (check_python_support utc_today project_files file
                        release_cycle_json (negb true) false).2 in
            r = Ok tt ∨ is_Some (report_line file r)) as Hall.
  { intros file [->|[->|[]%elem_of_nil]%elem_of_cons]%elem_of_cons;
      right; by eexists. }
  exact (main_without_fix utc_today release_cycle_json project_files
           ["b.toml"; "a.toml"] true Hall).
Defined.

Lemma main_malformed_cache_witness :
  main utc_today unknown_status_json project_files ["a.toml"; "b.toml"] true true =
    (project_files, [], Raise ValueError).
Proof.
  apply (main_malformed_cache utc_today unknown_status_json project_files
           "a.toml" ["b.toml"] (manifest ">=3.8") ">=3.8" spec_ge38 true true
           ValueError);
    [reflexivity|reflexivity|reflexivity|discriminate|reflexivity].
Defined.
End more_examples.
